(** * telegram_agent.py: tool-hint patching and the delivery pipeline

    A shallow embedding of [main] of [src/telegram_agent.py].

    The program reads four environment variables, patches the type hints of
    the tools of a FastMCP registry in place, calls the completion provider
    with the patched callables, and posts the answer (or an error notice) to
    the messaging provider.

    Python values are modelled as follows.
    - [str] is [string]; one character of a [string] stands for one Python
      character, so [len] is [String.length] and [s[:n]] is
      [String.substring 0 n s].
    - An [Optional[str]] (the result of [os.getenv], [response.text]) is an
      [option string].
    - A raised [Exception] is the text [str(e)] of it.  Objects raised
      outside [Exception] (interpreter exit, keyboard interrupt), texts that
      cannot be formatted and the difference between the two handlers of
      [main] are the subject of the part on exception classes ([main_exc]),
      which agrees with [main] where only such exceptions are raised.
    - Callables are objects of a store ([Heap]) addressed by reference, since
      the program mutates them through aliases.
    - Library calls whose code is not part of the repository
      ([inspect.signature], [genai.Client], [generate_content],
      [requests.post], [raise_for_status], the registry's [list_tools]) are
      given by their observable outcome: a value, or the exception raised. *)

From stdpp Require Import base option list strings gmap functions pretty.
From Stdlib Require Import String Ascii Lia.

Local Open Scope string_scope.
Local Open Scope list_scope.
Local Open Scope stdpp_scope.

(** ** Values of the tool metadata *)

(** A default value of a parameter.  [PyNone] is Python's [None]. *)
Inductive PyVal : Type :=
| PyNone
| PyStr (s : string)
| PyInt (z : Z)
| PyBool (b : bool).

(** A type annotation.  [TStr] is the class [str]. *)
Inductive TypeTag : Type :=
| TStr
| TInt
| TBool
| TOther (name : string).

(** One entry of [sig.parameters].  [p_default = None] is
    [inspect.Parameter.empty] (the parameter has no default at all);
    [p_default = Some PyNone] is a default that is [None]. *)
Record Param : Type := MkParam {
  p_name : string;
  p_default : option PyVal
}.

(** [str(e)] of a raised exception. *)
Definition Exn : Type := string.

(** A callable of the registry, as far as [main] observes it. *)
Record FnObj : Type := MkFn {
  (** [inspect.signature(f)]: the ordered parameters, or the exception. *)
  fn_signature : Exn + list Param;
  (** [f.__annotations__]; [None] when the object has no such attribute. *)
  fn_annotations : option (gmap string TypeTag);
  (** What the assignment [f.__annotations__ = d] does: [None] stores [d],
      [Some e] raises [e] and stores nothing (a bound method, for one,
      refuses the assignment with an [AttributeError]). *)
  fn_setattr : option Exn
}.

(** A reference to a callable. *)
Abbreviation loc := nat (only parsing).

(** The store of callables: every reference denotes an object. *)
Abbreviation Heap := (loc → FnObj) (only parsing).

(** An entry of [mcp._tool_manager.list_tools()]. *)
Record Tool : Type := MkTool {
  tool_name : string;
  tool_fn : loc
}.

(** Equality of the metadata is decidable. *)
Global Instance PyVal_eq_dec : EqDecision PyVal.
Proof. solve_decision. Defined.

Global Instance TypeTag_eq_dec : EqDecision TypeTag.
Proof. solve_decision. Defined.

Global Instance Param_eq_dec : EqDecision Param.
Proof. solve_decision. Defined.

Global Instance Tool_eq_dec : EqDecision Tool.
Proof. solve_decision. Defined.

(** ** Observable events *)

Inductive Event : Type :=
| LogError (msg : string)
| LogWarning (msg : string)
| LogInfo (msg : string)
| LogDebug (msg : string)
(** [client.models.generate_content(model=.., contents=.., config=..tools..)] *)
| CallGenerate (model : string) (contents : option string) (tools : list loc)
(** [requests.post(url, json=payload)] *)
| CallPost (url : string) (payload : list (string * option string)).

Global Instance Event_eq_dec : EqDecision Event.
Proof. solve_decision. Defined.

(** ** The monad of [main]: store, event trace, exceptions *)

Definition M (A : Type) : Type := Heap → Heap * list Event * (Exn + A).

Global Instance M_ret : MRet M := λ A a h, (h, [], inr a).

Global Instance M_bind : MBind M := λ A B k m h,
  match m h with
  | (h1, t1, inl e) => (h1, t1, inl e)
  | (h1, t1, inr a) =>
      match k a h1 with
      | (h2, t2, r) => (h2, t1 ++ t2, r)
      end
  end.

(** [raise e] *)
Definition raise {A : Type} (e : Exn) : M A := λ h, (h, [], inl e).

(** Logging and outbound calls leave an event. *)
Definition emit (ev : Event) : M unit := λ h, (h, [ev], inr tt).

(** [try: body except Exception as e: handler e].  Every raised object of
    this part is an [Exception], so the bare [except:] of line 89 is this
    handler as well; [except_Exception] and [except_all] below tell the two
    apart. *)
Definition try_except {A : Type} (body : M A) (handler : Exn → M A) : M A :=
  λ h,
  match body h with
  | (h1, t1, inr a) => (h1, t1, inr a)
  | (h1, t1, inl e) =>
      match handler e h1 with
      | (h2, t2, r) => (h2, t1 ++ t2, r)
      end
  end.

(** Outcome of a library call: return the value or raise. *)
Definition lift_outcome {A : Type} (r : Exn + A) : M A :=
  match r with
  | inl e => raise e
  | inr a => mret a
  end.

Definition read_heap : M Heap := λ h, (h, [], inr h).

Definition write_obj (f : loc) (o : FnObj) : M unit :=
  λ h, (<[f := o]> h, [], inr tt).

(** ** Lines 31-50: patching the type hints *)

(** The dictionary bound to [hints] by
    [getattr(f, '__annotations__', {})]: the object's own dictionary
    (an alias, so that item assignment shows on the object at once), or the
    fresh [{}] of the default. *)
Inductive HintsRef : Type :=
| AttrDict (f : loc)
| FreshDict (d : gmap string TypeTag).

(** [inspect.signature(f)] *)
Definition inspect_signature (f : loc) : M (list Param) :=
  h ← read_heap; lift_outcome (fn_signature (h f)).

(** [getattr(f, '__annotations__', {})] *)
Definition getattr_annotations (f : loc) : M HintsRef :=
  h ← read_heap;
  match fn_annotations (h f) with
  | Some _ => mret (AttrDict f)
  | None => mret (FreshDict ∅)
  end.

(** The contents of the dictionary behind a reference. *)
Definition deref (hints : HintsRef) : M (gmap string TypeTag) :=
  match hints with
  | AttrDict f => h ← read_heap; mret (default ∅ (fn_annotations (h f)))
  | FreshDict d => mret d
  end.

(** [name in hints] *)
Definition hints_contains (hints : HintsRef) (name : string) : M bool :=
  d ← deref hints; mret (bool_decide (is_Some (d !! name))).

(** [hints[name] = ty].  The store gives every reference an annotations
    dictionary of its own; two references whose [__annotations__] is one
    shared dictionary (a bound method and its function, a [functools.wraps]
    wrapper and the function it wraps) are outside this store. *)
Definition hints_setitem (hints : HintsRef) (name : string) (ty : TypeTag)
  : M HintsRef :=
  match hints with
  | AttrDict f =>
      h ← read_heap;
      let o := h f in
      write_obj f (MkFn (fn_signature o)
                        (Some (<[name := ty]> (default ∅ (fn_annotations o))))
                        (fn_setattr o));;
      mret (AttrDict f)
  | FreshDict d => mret (FreshDict (<[name := ty]> d))
  end.

(** [f.__annotations__ = hints] *)
Definition setattr_annotations (f : loc) (hints : HintsRef) : M unit :=
  d ← deref hints;
  h ← read_heap;
  let o := h f in
  match fn_setattr o with
  | Some e => raise e
  | None => write_obj f (MkFn (fn_signature o) (Some d) (fn_setattr o))
  end.

(** [param.default is None] *)
Definition default_is_None (param : Param) : bool :=
  match p_default param with
  | Some PyNone => true
  | _ => false
  end.

(** Lines 39-43: [for name, param in sig.parameters.items(): ...] *)
Fixpoint for_params (params : list Param) (hints : HintsRef) (changed : bool)
  : M (HintsRef * bool) :=
  match params with
  | [] => mret (hints, changed)
  | param :: rest =>
      present ← hints_contains hints (p_name param);
      if negb present && default_is_None param then
        hints' ← hints_setitem hints (p_name param) TStr;
        for_params rest hints' true
      else
        for_params rest hints changed
  end.

(** Lines 36-46: the body of the inner [try]. *)
Definition patch_body (tool : Tool) : M unit :=
  let f := tool_fn tool in
  sig ← inspect_signature f;
  hints ← getattr_annotations f;
  '(hints, changed) ← for_params sig hints false;
  if changed : bool then
    setattr_annotations f hints;;
    emit (LogDebug ("Patched type hints for tool: " +:+ tool_name tool))
  else mret tt.

(** Lines 35-48: the inner [try ... except Exception as patch_err]. *)
Definition patch_tool (tool : Tool) : M unit :=
  try_except (patch_body tool)
    (λ patch_err,
       emit (LogWarning ("Could not patch tool " +:+ tool_name tool
                         +:+ ": " +:+ patch_err))).

(** Lines 30-50: [for tool in ...list_tools(): ...; tools_functions.append(f)] *)
Fixpoint for_tools (tools : list Tool) (tools_functions : list loc)
  : M (list loc) :=
  match tools with
  | [] => mret tools_functions
  | tool :: rest =>
      patch_tool tool;;
      for_tools rest (tools_functions ++ [tool_fn tool])
  end.

(** The sanitizing stage: [tools_functions = []] and the loop. *)
Definition sanitize (tools : list Tool) : M (list loc) := for_tools tools [].

(** ** The external collaborators *)

(** The response object of [requests.post], as far as [main] uses it:
    [raise_for_status ()] returns ([None]) or raises ([Some e]). *)
Record Response : Type := MkResponse {
  raise_for_status : option Exn
}.

Record World : Type := MkWorld {
  (** [genai.Client(api_key=..)]: returns ([None]) or raises. *)
  genai_Client : option string → option Exn;
  (** [mcp._tool_manager.list_tools()] *)
  list_tools : Exn + list Tool;
  (** [generate_content(..).text] for a model, contents and tools, with
      the callables in their current state. *)
  generate_content :
    Heap → string → option string → list loc → Exn + option string;
  (** [requests.post(url, json=payload)] *)
  requests_post : string → list (string * option string) → Exn + Response
}.

(** [os.getenv(k)] *)
Definition getenv (environ : gmap string string) (k : string) : option string :=
  environ !! k.

(** Truth value of an [Optional[str]]: [None] and [""] are false. *)
Definition truthy (v : option string) : bool :=
  match v with
  | Some s => negb (String.eqb s "")
  | None => false
  end.

(** [f"{v}"] for an [Optional[str]]. *)
Definition fmt (v : option string) : string := default "None" v.

(** [s[:n]] *)
Definition slice_to (n : nat) (s : string) : string := String.substring 0 n s.

Definition missing_env_msg : string :=
  "Missing environment variables: GOOGLE_API_KEY, TELEGRAM_BOT_TOKEN, TELEGRAM_CHAT_ID, TELEGRAM_MESSAGE".

Definition fallback_text : string :=
  "I couldn't process that request properly. Please try again.".

Definition error_prefix : string := "Sorry, I encountered an error: ".

Definition model_id : string := "gemini-2.5-flash".

(** [f"https://api.telegram.org/bot{bot_token}/sendMessage"] *)
Definition telegram_url (bot_token : option string) : string :=
  "https://api.telegram.org/bot" +:+ fmt bot_token +:+ "/sendMessage".

(** Lines 55-62 and 64: the completion call and [response.text]. *)
Definition call_generate (w : World) (contents : option string)
    (tools : list loc) : M (option string) :=
  emit (CallGenerate model_id contents tools);;
  h ← read_heap;
  lift_outcome (generate_content w h model_id contents tools).

(** [requests.post(url, json=payload)] *)
Definition call_post (w : World) (url : string)
    (payload : list (string * option string)) : M Response :=
  emit (CallPost url payload);;
  lift_outcome (requests_post w url payload).

(** Lines 27-80: the body of the outer [try]. *)
Definition process (w : World)
    (api_key bot_token chat_id message : option string) : M unit :=
  from_option raise (mret tt) (genai_Client w api_key);;
  tools ← lift_outcome (list_tools w);
  tools_functions ← sanitize tools;
  emit (LogInfo ("Loaded and sanitized " +:+ pretty (List.length tools_functions)
                 +:+ " tools from main.py"));;
  response_text ← call_generate w message tools_functions;
  let final_text :=
    if truthy response_text then fmt response_text else fallback_text in
  emit (LogInfo ("AI Response truncated: " +:+ slice_to 100 final_text
                 +:+ "..."));;
  let payload := [("chat_id", chat_id); ("text", Some final_text);
                  ("parse_mode", Some "Markdown")] in
  res ← call_post w (telegram_url bot_token) payload;
  from_option raise (mret tt) (raise_for_status res);;
  emit (LogInfo "Message sent to Telegram successfully").

(** Lines 82-90: the handler of the outer [try]. *)
Definition recover (w : World) (bot_token chat_id : option string) (e : Exn)
  : M unit :=
  emit (LogError ("Error in agent processing: " +:+ e));;
  let error_msg := error_prefix +:+ e in
  try_except
    (call_post w (telegram_url bot_token)
       [("chat_id", chat_id); ("text", Some (slice_to 4000 error_msg))];;
     mret tt)
    (λ _, mret tt).

(** Lines 14-90. *)
Definition main (environ : gmap string string) (w : World) : M unit :=
  let api_key := getenv environ "GOOGLE_API_KEY" in
  let bot_token := getenv environ "TELEGRAM_BOT_TOKEN" in
  let chat_id := getenv environ "TELEGRAM_CHAT_ID" in
  let message := getenv environ "TELEGRAM_MESSAGE" in
  if negb (forallb truthy [api_key; bot_token; chat_id; message]) then
    emit (LogError missing_env_msg)
  else
    emit (LogInfo ("Processing message for chat " +:+ fmt chat_id +:+ ": "
                   +:+ fmt message));;
    try_except (process w api_key bot_token chat_id message)
               (recover w bot_token chat_id).

(** ** Reading a run *)

Definition heap_of {A : Type} (r : Heap * list Event * (Exn + A)) : Heap :=
  r.1.1.
Definition trace_of {A : Type} (r : Heap * list Event * (Exn + A))
  : list Event := r.1.2.
Definition value_of {A : Type} (r : Heap * list Event * (Exn + A))
  : Exn + A := r.2.

(** A network call: the completion call or a post to the messaging
    provider. *)
Definition is_network (ev : Event) : bool :=
  match ev with
  | CallGenerate _ _ _ | CallPost _ _ => true
  | _ => false
  end.

Definition has_key (k : string) (payload : list (string * option string))
  : bool :=
  existsb (λ kv, String.eqb kv.1 k) payload.


Definition is_notification_send (ev : Event) : bool :=
  match ev with
  | CallPost _ payload => negb (has_key "parse_mode" payload)
  | _ => false
  end.

Definition count_events (p : Event → bool) (tr : list Event) : nat :=
  List.length (List.filter p tr).

(** ** Pure description of the patch, used to state what the loop does *)

(** The dictionary after lines 39-43 ran over [params] from [d]. *)
Fixpoint patched (params : list Param) (d : gmap string TypeTag)
  : gmap string TypeTag :=
  match params with
  | [] => d
  | param :: rest =>
      if negb (bool_decide (is_Some (d !! p_name param)))
         && default_is_None param
      then patched rest (<[p_name param := TStr]> d)
      else patched rest d
  end.

(** The flag [changed] after lines 39-43 ran over [params] from [d]. *)
Fixpoint needs_patch (params : list Param) (d : gmap string TypeTag) : bool :=
  match params with
  | [] => false
  | param :: rest =>
      if negb (bool_decide (is_Some (d !! p_name param)))
         && default_is_None param
      then true
      else needs_patch rest d
  end.

(** The state of a callable after one pass of lines 35-48 over it. *)
Definition patch_obj (o : FnObj) : FnObj :=
  match fn_signature o, fn_annotations o with
  | inl _, _ => o
  | inr ps, Some d => MkFn (fn_signature o) (Some (patched ps d)) (fn_setattr o)
  | inr ps, None =>
      if needs_patch ps ∅ then
        match fn_setattr o with
        | None => MkFn (fn_signature o) (Some (patched ps ∅)) None
        | Some _ => o
        end
      else o
  end.

(** The declared type of a parameter of a callable: its entry in
    [__annotations__], if any. *)
Definition declared_type (o : FnObj) (param : Param) : option TypeTag :=
  fn_annotations o ≫= (λ d, d !! p_name param).

Definition is_log (ev : Event) : bool := negb (is_network ev).

(** How lines 35-48 end for a callable: hints were written and assigned,
    nothing needed writing, or an exception reached the inner handler. *)
Inductive Outcome : Type :=
| Patched
| Untouched
| Raised (e : Exn).

Definition patch_outcome (o : FnObj) : Outcome :=
  match fn_signature o with
  | inl e => Raised e
  | inr ps =>
      if needs_patch ps (default ∅ (fn_annotations o)) then
        match fn_setattr o with
        | Some e => Raised e
        | None => Patched
        end
      else Untouched
  end.

Definition patch_log (tool : Tool) (r : Outcome) : list Event :=
  match r with
  | Patched => [LogDebug ("Patched type hints for tool: " +:+ tool_name tool)]
  | Untouched => []
  | Raised e => [LogWarning ("Could not patch tool " +:+ tool_name tool
                             +:+ ": " +:+ e)]
  end.

(** The events of the loop over the tools, from the store it starts on. *)
Fixpoint tools_log (tools : list Tool) (h : Heap) : list Event :=
  match tools with
  | [] => []
  | tool :: rest =>
      patch_log tool (patch_outcome (h (tool_fn tool)))
      ++ tools_log rest (<[tool_fn tool := patch_obj (h (tool_fn tool))]> h)
  end.

(** ** The events of the pipeline, stage by stage *)

(** The text handed to the primary send for a completion result. *)
Definition final_text_of (response_text : option string) : string :=
  if truthy response_text then fmt response_text else fallback_text.

Definition primary_payload (chat_id : option string) (final_text : string)
  : list (string * option string) :=
  [("chat_id", chat_id); ("text", Some final_text);
   ("parse_mode", Some "Markdown")].

Definition notification_payload (chat_id : option string) (e : Exn)
  : list (string * option string) :=
  [("chat_id", chat_id); ("text", Some (slice_to 4000 (error_prefix +:+ e)))].

(** The events of [process] up to and including the completion call. *)
Definition upto_generate (message : option string) (tools : list Tool)
    (h : Heap) : list Event :=
  tools_log tools h
  ++ [LogInfo ("Loaded and sanitized "
               +:+ pretty (List.length (map tool_fn tools))
               +:+ " tools from main.py");
      CallGenerate model_id message (map tool_fn tools)].

(** The events of [process] from the answer to the primary send. *)
Definition upto_post (bot_token chat_id : option string)
    (response_text : option string) : list Event :=
  [LogInfo ("AI Response truncated: "
            +:+ slice_to 100 (final_text_of response_text) +:+ "...");
   CallPost (telegram_url bot_token)
            (primary_payload chat_id (final_text_of response_text))].

Definition sent_log : Event := LogInfo "Message sent to Telegram successfully".

(** The values [main] requires, in the order of line 20. *)
Definition required_names : list string :=
  ["GOOGLE_API_KEY"; "TELEGRAM_BOT_TOKEN"; "TELEGRAM_CHAT_ID";
   "TELEGRAM_MESSAGE"].

(** The events of the handler of the outer [try]. *)
Definition recovery_events (bot_token chat_id : option string)
    (v : Exn + unit) : list Event :=
  match v with
  | inl e => [LogError ("Error in agent processing: " +:+ e);
              CallPost (telegram_url bot_token) (notification_payload chat_id e)]
  | inr _ => []
  end.

(** ** Example inputs *)

(** [def get_weather(city=None)]: one parameter, no hint, default [None]. *)
Definition get_weather : FnObj :=
  MkFn (inr [MkParam "city" (Some PyNone)]) (Some ∅) None.

(** [def lookup(city, units: Optional[str] = None, limit=10, lang=None)] *)
Definition lookup : FnObj :=
  MkFn (inr [MkParam "city" None; MkParam "units" (Some PyNone);
             MkParam "limit" (Some (PyInt 10)); MkParam "lang" (Some PyNone)])
       (Some {["units" := TOther "Optional[str]"]}) None.

(** A bound method [obj.report] of [def report(self, city=None)]: attribute
    reads go to the function, so [__annotations__] is the function's own
    dictionary, and the method object refuses attribute assignment. *)
Definition bound_report : FnObj :=
  MkFn (inr [MkParam "city" (Some PyNone)]) (Some ∅)
       (Some "'method' object has no attribute '__annotations__'").

(** A callable whose signature cannot be inspected. *)
Definition opaque_callable : FnObj :=
  MkFn (inl "no signature found") None None.

Definition registry_heap : Heap := λ l,
  match l with
  | 0 => get_weather
  | 1 => lookup
  | 2 => bound_report
  | _ => opaque_callable
  end.

Definition registry_tools : list Tool :=
  [MkTool "get_weather" 0; MkTool "lookup" 1; MkTool "report" 2;
   MkTool "opaque" 3].

Definition env_full : gmap string string :=
  list_to_map [("GOOGLE_API_KEY", "key"); ("TELEGRAM_BOT_TOKEN", "123:abc");
               ("TELEGRAM_CHAT_ID", "42");
               ("TELEGRAM_MESSAGE", "What's the weather tomorrow?")].

(** The messaging credential is missing. *)
Definition env_no_token : gmap string string :=
  delete "TELEGRAM_BOT_TOKEN" env_full.

(** Every call succeeds and the model answers [answer]. *)
Definition world_answering (answer : option string) : World :=
  MkWorld (λ _, None) (inr registry_tools) (λ _ _ _ _, inr answer)
          (λ _ _, inr (MkResponse None)).

(** The completion call raises [e]. *)
Definition world_failing (e : Exn) : World :=
  MkWorld (λ _, None) (inr registry_tools) (λ _ _ _ _, inl e)
          (λ _ _, inr (MkResponse None)).




(** ** Vocabulary of the claims about a run *)







Definition is_error_log (ev : Event) : bool :=
  match ev with
  | LogError _ => true
  | _ => false
  end.

Definition is_post (ev : Event) : bool :=
  match ev with
  | CallPost _ _ => true
  | _ => false
  end.



(** The builtin [sorted(iterable, /, *, key=None, reverse=False)]: its
    signature can be inspected, it has no [__annotations__] attribute and
    it refuses the assignment of one. *)
Definition builtin_sorted : FnObj :=
  MkFn (inr [MkParam "iterable" None; MkParam "key" (Some PyNone);
             MkParam "reverse" (Some (PyBool false))])
       None
       (Some "'builtin_function_or_method' object has no attribute '__annotations__'").

(** A registry whose one tool is the builtin. *)
Definition builtins_heap : Heap := λ _, builtin_sorted.

Definition builtins_tools : list Tool := [MkTool "sorted" 0].

(** ** Vocabulary of the further properties *)

Definition is_generate (ev : Event) : bool :=
  match ev with
  | CallGenerate _ _ _ => true
  | _ => false
  end.

Definition is_debug_log (ev : Event) : bool :=
  match ev with
  | LogDebug _ => true
  | _ => false
  end.

(** The hints of a callable cover its parameters: the signature can be
    inspected and every parameter whose default is [None] has a declared
    type.  (A callable whose parameters all carry hints is such a one.) *)
Definition hints_cover (o : FnObj) : Prop :=
  ∃ ps, fn_signature o = inr ps
        ∧ ∀ param, param ∈ ps → default_is_None param = true →
                   is_Some (declared_type o param).

(** ** Exceptions by class: the two handlers of [main]

    The outer handler of [main] is [except Exception as e] (line 82) and
    the inner one a bare [except:] (line 89); the handler formats [e] at
    lines 83-84 outside the inner [try].  To tell the two handlers apart,
    this part gives a raised object its class and what [str(e)] does, and
    lets every call of the collaborators raise any such object.  The
    patching of the hints is the stage [sanitize] above. *)

(** A raised object: whether it is an instance of [Exception] (a
    [KeyboardInterrupt] or a [SystemExit] is not), and [str(e)]: the text,
    or the object that [__str__] raises. *)
Inductive BaseExc : Type :=
| Printable (is_exception : bool) (text : Exn)
| Unprintable (is_exception : bool) (raised : BaseExc).

(** [isinstance(e, Exception)] *)
Definition is_Exception (e : BaseExc) : bool :=
  match e with
  | Printable b _ | Unprintable b _ => b
  end.

Global Instance BaseExc_eq_dec : EqDecision BaseExc.
Proof. solve_decision. Defined.

(** The response of [requests.post] whose [raise_for_status] may raise any
    object. *)
Record ResponseB : Type := MkResponseB {
  raise_for_status_b : option BaseExc
}.

(** The collaborators, each call returning or raising any object. *)
Record WorldB : Type := MkWorldB {
  genai_Client_b : option string → option BaseExc;
  list_tools_b : BaseExc + list Tool;
  generate_content_b :
    Heap → string → option string → list loc → BaseExc + option string;
  requests_post_b :
    string → list (string * option string) → BaseExc + ResponseB
}.

Definition MB (A : Type) : Type := Heap → Heap * list Event * (BaseExc + A).

Global Instance MB_ret : MRet MB := λ A a h, (h, [], inr a).

Global Instance MB_bind : MBind MB := λ A B k m h,
  match m h with
  | (h1, t1, inl e) => (h1, t1, inl e)
  | (h1, t1, inr a) =>
      match k a h1 with
      | (h2, t2, r) => (h2, t1 ++ t2, r)
      end
  end.

Definition raise_b {A : Type} (e : BaseExc) : MB A := λ h, (h, [], inl e).

(** A computation of the part above: what it raises is an [Exception] with
    the text it carries. *)
Definition lift {A : Type} (m : M A) : MB A :=
  λ h,
  match m h with
  | (h1, t1, inl e) => (h1, t1, inl (Printable true e))
  | (h1, t1, inr a) => (h1, t1, inr a)
  end.

Definition outcome_b {A : Type} (r : BaseExc + A) : MB A :=
  match r with
  | inl e => raise_b e
  | inr a => mret a
  end.

(** [try: body except Exception as e: handler e]: an object that is not an
    [Exception] passes the handler. *)
Definition except_Exception {A : Type} (body : MB A) (handler : BaseExc → MB A)
  : MB A :=
  λ h,
  match body h with
  | (h1, t1, inr a) => (h1, t1, inr a)
  | (h1, t1, inl e) =>
      if is_Exception e then
        match handler e h1 with
        | (h2, t2, r) => (h2, t1 ++ t2, r)
        end
      else (h1, t1, inl e)
  end.

(** [try: body except: handler]: every raised object is caught. *)
Definition except_all {A : Type} (body : MB A) (handler : MB A) : MB A :=
  λ h,
  match body h with
  | (h1, t1, inr a) => (h1, t1, inr a)
  | (h1, t1, inl _) =>
      match handler h1 with
      | (h2, t2, r) => (h2, t1 ++ t2, r)
      end
  end.

(** [str(e)], also what [f"{e}"] calls. *)
Definition py_str (e : BaseExc) : MB string :=
  match e with
  | Printable _ text => mret text
  | Unprintable _ raised => raise_b raised
  end.

Definition call_generate_b (w : WorldB) (contents : option string)
    (tools : list loc) : MB (option string) :=
  lift (emit (CallGenerate model_id contents tools));;
  h ← lift read_heap;
  outcome_b (generate_content_b w h model_id contents tools).

Definition call_post_b (w : WorldB) (url : string)
    (payload : list (string * option string)) : MB ResponseB :=
  lift (emit (CallPost url payload));;
  outcome_b (requests_post_b w url payload).

(** Lines 27-80 with the classes of what is raised. *)
Definition process_exc (w : WorldB)
    (api_key bot_token chat_id message : option string) : MB unit :=
  from_option raise_b (mret tt) (genai_Client_b w api_key);;
  tools ← outcome_b (list_tools_b w);
  tools_functions ← lift (sanitize tools);
  lift (emit (LogInfo ("Loaded and sanitized "
                       +:+ pretty (List.length tools_functions)
                       +:+ " tools from main.py")));;
  response_text ← call_generate_b w message tools_functions;
  let final_text :=
    if truthy response_text then fmt response_text else fallback_text in
  lift (emit (LogInfo ("AI Response truncated: " +:+ slice_to 100 final_text
                       +:+ "...")));;
  let payload := [("chat_id", chat_id); ("text", Some final_text);
                  ("parse_mode", Some "Markdown")] in
  res ← call_post_b w (telegram_url bot_token) payload;
  from_option raise_b (mret tt) (raise_for_status_b res);;
  lift (emit (LogInfo "Message sent to Telegram successfully")).

(** Lines 83-90: the body of the outer handler. *)
Definition recover_exc (w : WorldB) (bot_token chat_id : option string)
    (e : BaseExc) : MB unit :=
  text ← py_str e;
  lift (emit (LogError ("Error in agent processing: " +:+ text)));;
  text' ← py_str e;
  let error_msg := error_prefix +:+ text' in
  except_all
    (call_post_b w (telegram_url bot_token)
       [("chat_id", chat_id); ("text", Some (slice_to 4000 error_msg))];;
     mret tt)
    (mret tt).

(** Lines 14-90 with the classes of what is raised. *)
Definition main_exc (environ : gmap string string) (w : WorldB) : MB unit :=
  let api_key := getenv environ "GOOGLE_API_KEY" in
  let bot_token := getenv environ "TELEGRAM_BOT_TOKEN" in
  let chat_id := getenv environ "TELEGRAM_CHAT_ID" in
  let message := getenv environ "TELEGRAM_MESSAGE" in
  if negb (forallb truthy [api_key; bot_token; chat_id; message]) then
    lift (emit (LogError missing_env_msg))
  else
    lift (emit (LogInfo ("Processing message for chat " +:+ fmt chat_id
                         +:+ ": " +:+ fmt message)));;
    except_Exception (process_exc w api_key bot_token chat_id message)
                     (recover_exc w bot_token chat_id).

(** Reading a run of this part. *)
Definition heap_b {A : Type} (r : Heap * list Event * (BaseExc + A)) : Heap :=
  r.1.1.
Definition trace_b {A : Type} (r : Heap * list Event * (BaseExc + A))
  : list Event := r.1.2.
Definition value_b {A : Type} (r : Heap * list Event * (BaseExc + A))
  : BaseExc + A := r.2.

(** The collaborators of the part above, seen with classes: whatever they
    raise is an [Exception] with its text. *)
Definition as_exception {A : Type} (r : Exn + A) : BaseExc + A :=
  match r with
  | inl e => inl (Printable true e)
  | inr a => inr a
  end.

Definition embed_world (w : World) : WorldB :=
  MkWorldB (λ k, Printable true <$> genai_Client w k)
           (as_exception (list_tools w))
           (λ h model contents tools,
              as_exception (generate_content w h model contents tools))
           (λ url payload,
              match requests_post w url payload with
              | inl e => inl (Printable true e)
              | inr res =>
                  inr (MkResponseB (Printable true <$> raise_for_status res))
              end).

(** [KeyboardInterrupt()], whose text is empty. *)
Definition keyboard_interrupt : BaseExc := Printable false "".

(** The completion call is interrupted from the keyboard. *)
Definition world_interrupted : WorldB :=
  MkWorldB (λ _, None) (inr registry_tools)
           (λ _ _ _ _, inl keyboard_interrupt)
           (λ _ _, inr (MkResponseB None)).

(** The completion call fails and the notification send is interrupted. *)
Definition world_failing_twice : WorldB :=
  MkWorldB (λ _, None) (inr registry_tools)
           (λ _ _ _ _, inl (Printable true "connection reset"))
           (λ _ _, inl keyboard_interrupt).

(** The completion call raises an [Exception] whose [__str__] raises. *)
Definition world_unprintable : WorldB :=
  MkWorldB (λ _, None) (inr registry_tools)
           (λ _ _ _ _, inl (Unprintable true (Printable true "bad __str__")))
           (λ _ _, inr (MkResponseB None)).

(** ** Runs of the monadic operations *)

Section Runs.
Context {A B : Type}.

Lemma run_bind_inr (m : M A) (k : A → M B) h h1 t1 a :
  m h = (h1, t1, inr a) →
  (m ≫= k) h = (heap_of (k a h1), t1 ++ trace_of (k a h1), value_of (k a h1)).
Proof.
  intros Hm. unfold mbind, M_bind. rewrite Hm.
  by destruct (k a h1) as [[h2 t2] r].
Qed.

End Runs.

(** A decidable proposition about concrete data, settled by evaluation. *)
Ltac decide_by_compute :=
  match goal with
  | |- ?P => apply (bool_decide_unpack P); vm_compute; exact I
  end.

(** Unfolding of the monadic operations on a given store. *)
Ltac run_ops :=
  unfold hints_contains, hints_setitem, deref, setattr_annotations,
    inspect_signature, getattr_annotations, lift_outcome;
  unfold mbind, M_bind, mret, M_ret, raise, emit, read_heap, write_obj;
  cbn.

(** ** The inner loop *)

Lemma for_params_fresh params d changed h :
  for_params params (FreshDict d) changed h
  = (h, [], inr (FreshDict (patched params d),
                 changed || needs_patch params d)).
Proof.
  revert d changed. induction params as [|p rest IH]; intros d changed.
  - cbn. by rewrite orb_false_r.
  - cbn [for_params patched needs_patch]. run_ops.
    destruct (negb (bool_decide (is_Some (d !! p_name p))) && default_is_None p).
    + run_ops. rewrite IH. by rewrite orb_true_r.
    + by rewrite IH.
Qed.

Lemma for_params_attr params f changed h d :
  fn_annotations (h f) = Some d →
  ∃ h',
    for_params params (AttrDict f) changed h
    = (h', [], inr (AttrDict f, changed || needs_patch params d))
    ∧ (∀ l, l ≠ f → h' l = h l)
    ∧ h' f = MkFn (fn_signature (h f)) (Some (patched params d))
                  (fn_setattr (h f)).
Proof.
  revert d changed h. induction params as [|p rest IH]; intros d changed h Hd.
  - exists h. cbn. rewrite orb_false_r. split; [done|]. split; [done|].
    destruct (h f) as [s a x]; cbn in *. by subst.
  - cbn [for_params patched needs_patch]. run_ops. rewrite Hd. cbn.
    destruct (negb (bool_decide (is_Some (d !! p_name p))) && default_is_None p).
    + run_ops. rewrite Hd. cbn.
      match goal with
      | |- context [for_params rest (AttrDict f) true ?h1] =>
          destruct (IH (<[p_name p:=TStr]> d) true h1)
            as (h' & Hrun & Hfr & Hf)
      end.
      { by rewrite fn_lookup_insert. }
      exists h'. rewrite Hrun. cbn. rewrite orb_true_r.
      split; [done|]. split.
      * intros l Hl. rewrite (Hfr l Hl). by rewrite fn_lookup_insert_ne.
      * rewrite Hf. by rewrite fn_lookup_insert.
    + destruct (IH d changed h Hd) as (h' & Hrun & Hfr & Hf).
      exists h'. by rewrite Hrun.
Qed.

(** ** Facts about the patched dictionary *)

Lemma patched_lookup params d x :
  patched params d !! x
  = match d !! x with
    | Some ty => Some ty
    | None =>
        if existsb (λ p, bool_decide (p_name p = x) && default_is_None p) params
        then Some TStr else None
    end.
Proof.
  revert d. induction params as [|p rest IH]; intros d; cbn.
  - by destruct (d !! x).
  - destruct (decide (p_name p = x)) as [->|Hne].
    + rewrite (bool_decide_true (x = x)) by done. cbn.
      destruct (d !! x) as [ty|] eqn:Hx.
      * rewrite bool_decide_true by eauto. cbn. by rewrite IH, Hx.
      * rewrite bool_decide_false by (by intros [? ?]). cbn.
        destruct (default_is_None p); cbn.
        -- by rewrite IH, lookup_insert_eq.
        -- by rewrite IH, Hx.
    + rewrite (bool_decide_false (p_name p = x)) by done. cbn.
      destruct (negb (bool_decide (is_Some (d !! p_name p)))
                && default_is_None p).
      * by rewrite IH, lookup_insert_ne.
      * by rewrite IH.
Qed.

Lemma needs_patch_false params d :
  needs_patch params d = false → patched params d = d.
Proof.
  induction params as [|p rest IH]; cbn; [done|].
  by destruct (negb (bool_decide (is_Some (d !! p_name p)))
               && default_is_None p).
Qed.

Lemma needs_patch_false_iff params d :
  needs_patch params d = false
  ↔ ∀ p, p ∈ params → default_is_None p = true → is_Some (d !! p_name p).
Proof.
  induction params as [|p rest IH]; cbn.
  - split; [|done]. intros _ p Hp. by apply elem_of_nil in Hp.
  - destruct (bool_decide (is_Some (d !! p_name p))) eqn:Hs; cbn.
    + apply bool_decide_eq_true in Hs. rewrite IH. split.
      * intros H q Hq. apply elem_of_cons in Hq as [->|Hq]; [done|]. by apply H.
      * intros H q Hq. apply H. by apply elem_of_cons; right.
    + apply bool_decide_eq_false in Hs.
      destruct (default_is_None p) eqn:Hn.
      * split; [done|]. intros H. exfalso. apply Hs, H; [|done].
        by apply elem_of_cons; left.
      * rewrite IH. split.
        -- intros H q Hq. apply elem_of_cons in Hq as [->|Hq].
           ++ by rewrite Hn. 
           ++ by apply H.
        -- intros H q Hq. apply H. by apply elem_of_cons; right.
Qed.

Lemma needs_patch_patched params d :
  needs_patch params (patched params d) = false.
Proof.
  apply needs_patch_false_iff. intros p Hp Hn.
  rewrite patched_lookup. destruct (d !! p_name p); [done|].
  assert (existsb (λ q, bool_decide (p_name q = p_name p) && default_is_None q)
            params = true) as ->; [|done].
  apply existsb_exists. exists p. split.
  - by apply list_elem_of_In.
  - by rewrite bool_decide_true, Hn.
Qed.

Lemma patched_idem params d :
  patched params (patched params d) = patched params d.
Proof. apply needs_patch_false, needs_patch_patched. Qed.

Lemma patch_obj_signature o : fn_signature (patch_obj o) = fn_signature o.
Proof.
  unfold patch_obj.
  destruct (fn_signature o) as [e|ps] eqn:Hs; [done|].
  destruct (fn_annotations o); [done|].
  destruct (needs_patch ps ∅); [|done].
  by destruct (fn_setattr o).
Qed.

Lemma patch_obj_idem o : patch_obj (patch_obj o) = patch_obj o.
Proof.
  destruct o as [[e|ps] [d|] [x|]]; unfold patch_obj; cbn; try done.
  - by rewrite patched_idem.
  - by rewrite patched_idem.
  - destruct (needs_patch ps ∅) eqn:Hn; cbn; by rewrite ?Hn.
  - destruct (needs_patch ps ∅) eqn:Hn; cbn; [|by rewrite Hn].
    by rewrite patched_idem.
Qed.

(** ** One pass over a tool, and the loop over the tools *)

Lemma patch_body_run tool h :
  ∃ h',
    patch_body tool h
    = (h',
       match patch_outcome (h (tool_fn tool)) with
       | Patched => patch_log tool Patched
       | _ => []
       end,
       match patch_outcome (h (tool_fn tool)) with
       | Raised e => inl e
       | _ => inr tt
       end)
    ∧ (∀ l, l ≠ tool_fn tool → h' l = h l)
    ∧ h' (tool_fn tool) = patch_obj (h (tool_fn tool)).
Proof.
  unfold patch_body, patch_outcome, patch_obj, patch_log.
  set (f := tool_fn tool).
  run_ops.
  destruct (fn_signature (h f)) as [e|ps] eqn:Hs; cbn.
  { by exists h. }
  destruct (fn_annotations (h f)) as [d|] eqn:Ha; cbn.
  - destruct (for_params_attr ps f false h d Ha) as (h1 & Hrun & Hfr & Hf).
    rewrite Hrun. cbn.
    destruct (needs_patch ps d) eqn:Hn; run_ops.
    + rewrite Hf. cbn.
      destruct (fn_setattr (h f)) as [e|] eqn:Hx; cbn.
      * exists h1. split; [done|]. split; [done|]. by rewrite ?Hf, ?Hs, ?Hx.
      * eexists. split; [done|]. split.
        -- intros l Hl. rewrite fn_lookup_insert_ne by done. by apply Hfr.
        -- by rewrite fn_lookup_insert, ?Hs.
    + exists h1. split; [done|]. split; [done|]. by rewrite ?Hf, ?Hs.
  - rewrite for_params_fresh. cbn.
    destruct (needs_patch ps ∅) eqn:Hn; run_ops.
    + destruct (fn_setattr (h f)) as [e|] eqn:Hx; cbn.
      * by exists h.
      * eexists. split; [done|]. split.
        -- intros l Hl. by rewrite fn_lookup_insert_ne.
        -- by rewrite fn_lookup_insert, ?Hs.
    + by exists h.
Qed.

Lemma patch_tool_run tool h :
  ∃ h',
    patch_tool tool h
    = (h', patch_log tool (patch_outcome (h (tool_fn tool))), inr tt)
    ∧ (∀ l, l ≠ tool_fn tool → h' l = h l)
    ∧ h' (tool_fn tool) = patch_obj (h (tool_fn tool)).
Proof.
  destruct (patch_body_run tool h) as (h' & Hrun & Hfr & Hf).
  exists h'. split; [|done].
  unfold patch_tool, try_except. rewrite Hrun.
  destruct (patch_outcome (h (tool_fn tool))); cbn; try done.
Qed.

Lemma tools_log_ext tools (h1 h2 : Heap) :
  (∀ l, h1 l = h2 l) → tools_log tools h1 = tools_log tools h2.
Proof.
  revert h1 h2. induction tools as [|tool rest IH]; intros h1 h2 Heq; cbn.
  - done.
  - rewrite (Heq (tool_fn tool)). f_equal. apply IH. intros l.
    destruct (decide (tool_fn tool = l)) as [<-|Hne].
    + by rewrite !fn_lookup_insert.
    + by rewrite !fn_lookup_insert_ne.
Qed.

Lemma patch_log_is_log tool r ev :
  ev ∈ patch_log tool r → is_log ev = true.
Proof.
  destruct r; cbn; intros Hev.
  - by apply list_elem_of_singleton in Hev as ->.
  - by apply elem_of_nil in Hev.
  - by apply list_elem_of_singleton in Hev as ->.
Qed.

Lemma tools_log_is_log tools h ev :
  ev ∈ tools_log tools h → is_log ev = true.
Proof.
  revert h. induction tools as [|tool rest IH]; intros h; cbn.
  - intros Hev. by apply elem_of_nil in Hev.
  - intros Hev. apply elem_of_app in Hev as [Hev|Hev].
    + by eapply patch_log_is_log.
    + by eapply IH.
Qed.

Lemma for_tools_run tools acc h :
  ∃ h',
    for_tools tools acc h
    = (h', tools_log tools h, inr (acc ++ map tool_fn tools))
    ∧ ∀ l, h' l = if bool_decide (l ∈ map tool_fn tools)
                  then patch_obj (h l) else h l.
Proof.
  revert acc h. induction tools as [|tool rest IH]; intros acc h.
  - exists h. cbn. by rewrite app_nil_r.
  - cbn [for_tools tools_log map].
    destruct (patch_tool_run tool h) as (h1 & Hrun & Hfr & Hf).
    destruct (IH (acc ++ [tool_fn tool]) h1) as (h' & Hrest & Hh').
    exists h'. split.
    + erewrite run_bind_inr by exact Hrun. rewrite Hrest. cbn.
      rewrite <- app_assoc. cbn. do 2 f_equal.
      f_equal. apply tools_log_ext. intros l.
      destruct (decide (tool_fn tool = l)) as [<-|Hne].
      * by rewrite fn_lookup_insert.
      * rewrite fn_lookup_insert_ne by done. by apply Hfr.
    + intros l. rewrite Hh'.
      destruct (decide (l = tool_fn tool)) as [->|Hne].
      * rewrite (bool_decide_true (_ ∈ _ :: _)) by (by apply elem_of_cons; left).
        rewrite Hf. case_bool_decide; [apply patch_obj_idem | done].
      * rewrite (Hfr l Hne).
        assert (bool_decide (l ∈ tool_fn tool :: map tool_fn rest)
                = bool_decide (l ∈ map tool_fn rest)) as ->; [|done].
        apply bool_decide_ext. rewrite elem_of_cons.
        split; [by intros [?|?] | by right].
Qed.

(** The sanitizing stage never raises: it returns the callables of the tools
    in order, logs only, and leaves every callable as one pass of the patch
    leaves it. *)
Lemma sanitize_run tools h :
  ∃ h',
    sanitize tools h = (h', tools_log tools h, inr (map tool_fn tools))
    ∧ ∀ l, h' l = if bool_decide (l ∈ map tool_fn tools)
                  then patch_obj (h l) else h l.
Proof. apply (for_tools_run tools [] h). Qed.

(** ** The pipeline flattened *)

Lemma process_run w api_key bot_token chat_id message h :
  process w api_key bot_token chat_id message h
  = match genai_Client w api_key, list_tools w with
    | Some e, _ => (h, [], inl e)
    | None, inl e => (h, [], inl e)
    | None, inr tools =>
        let h' := heap_of (sanitize tools h) in
        let fns := map tool_fn tools in
        match generate_content w h' model_id message fns with
        | inl e => (h', upto_generate message tools h, inl e)
        | inr text =>
            let tr := upto_generate message tools h
                      ++ upto_post bot_token chat_id text in
            match requests_post w (telegram_url bot_token)
                    (primary_payload chat_id (final_text_of text)) with
            | inl e => (h', tr, inl e)
            | inr res =>
                match raise_for_status res with
                | Some e => (h', tr, inl e)
                | None => (h', tr ++ [sent_log], inr tt)
                end
            end
        end
    end.
Proof.
  unfold process, call_generate, call_post.
  unfold mbind at 1, M_bind at 1.
  destruct (genai_Client w api_key) as [e|]; [done|]. cbn [from_option].
  unfold mret at 1, M_ret at 1.
  unfold mbind at 1, M_bind at 1.
  destruct (list_tools w) as [e|tools]; [done|]. cbn [lift_outcome].
  unfold mret at 1, M_ret at 1.
  destruct (sanitize_run tools h) as (h' & Hrun & _).
  unfold mbind at 1, M_bind at 1. rewrite Hrun.
  cbn [heap_of fst snd].
  unfold upto_generate, upto_post, final_text_of, primary_payload.
  run_ops.
  destruct (generate_content w h' model_id message (map tool_fn tools))
    as [e|text]; cbn; [done|].
  destruct (requests_post _ _ _) as [e|res]; cbn.
  { by rewrite <- ?app_assoc. }
  destruct (raise_for_status res) as [e|]; cbn;
    by rewrite ?app_nil_r, <- ?app_assoc.
Qed.

Lemma recover_run w bot_token chat_id e h :
  recover w bot_token chat_id e h
  = (h, recovery_events bot_token chat_id (inl e), inr tt).
Proof.
  unfold recover, call_post, try_except, notification_payload. run_ops.
  by destruct (requests_post _ _ _).
Qed.

Lemma main_run environ w h :
  main environ w h
  = if forallb truthy (map (getenv environ) required_names) then
      let api_key := getenv environ "GOOGLE_API_KEY" in
      let bot_token := getenv environ "TELEGRAM_BOT_TOKEN" in
      let chat_id := getenv environ "TELEGRAM_CHAT_ID" in
      let message := getenv environ "TELEGRAM_MESSAGE" in
      let r := process w api_key bot_token chat_id message h in
      (heap_of r,
       LogInfo ("Processing message for chat " +:+ fmt chat_id +:+ ": "
                +:+ fmt message)
       :: trace_of r ++ recovery_events bot_token chat_id (value_of r),
       inr tt)
    else (h, [LogError missing_env_msg], inr tt).
Proof.
  unfold main. cbn [map required_names].
  destruct (forallb truthy _); cbn [negb]; [|done].
  unfold try_except. unfold mbind, M_bind, emit.
  destruct (process _ _ _ _ _ h) as [[h1 t1] [e|[]]]; cbn.
  - by rewrite recover_run.
  - by rewrite app_nil_r.
Qed.

(** ** The sanitizing stage on the store *)

Lemma sanitize_value tools h :
  value_of (sanitize tools h) = inr (map tool_fn tools).
Proof. destruct (sanitize_run tools h) as (h' & -> & _). done. Qed.

Lemma sanitize_heap tools h l :
  heap_of (sanitize tools h) l
  = if bool_decide (l ∈ map tool_fn tools) then patch_obj (h l) else h l.
Proof. destruct (sanitize_run tools h) as (h' & -> & Hh). apply Hh. Qed.

Lemma sanitize_heap_in tools h tool :
  tool ∈ tools →
  heap_of (sanitize tools h) (tool_fn tool) = patch_obj (h (tool_fn tool)).
Proof.
  intros Hin. rewrite sanitize_heap, bool_decide_true; [done|].
  apply list_elem_of_In, in_map. by apply list_elem_of_In.
Qed.

Lemma nodup_names_inj ps (p q : Param) :
  NoDup (map p_name ps) → p ∈ ps → q ∈ ps → p_name p = p_name q → p = q.
Proof.
  induction ps as [|r rest IH]; cbn; intros Hnd Hp Hq Heq.
  - by apply elem_of_nil in Hp.
  - apply NoDup_cons in Hnd as [Hr Hnd].
    apply elem_of_cons in Hp as [->|Hp]; apply elem_of_cons in Hq as [->|Hq].
    + done.
    + exfalso. apply Hr. rewrite Heq.
      apply list_elem_of_In, in_map. by apply list_elem_of_In.
    + exfalso. apply Hr. rewrite <- Heq.
      apply list_elem_of_In, in_map. by apply list_elem_of_In.
    + by apply IH.
Qed.

(** With distinct parameter names, the entry of a parameter after the loop
    depends on that parameter alone. *)
Lemma patched_lookup_param ps d param :
  NoDup (map p_name ps) → param ∈ ps →
  patched ps d !! p_name param
  = match d !! p_name param with
    | Some ty => Some ty
    | None => if default_is_None param then Some TStr else None
    end.
Proof.
  intros Hnd Hin. rewrite patched_lookup.
  destruct (d !! p_name param); [done|].
  destruct (default_is_None param) eqn:Hn.
  - assert (existsb (λ q, bool_decide (p_name q = p_name param)
                          && default_is_None q) ps = true) as ->; [|done].
    apply existsb_exists. exists param. split.
    + by apply list_elem_of_In.
    + by rewrite bool_decide_true, Hn.
  - assert (existsb (λ q, bool_decide (p_name q = p_name param)
                          && default_is_None q) ps = false) as ->; [|done].
    apply not_true_is_false. intros Hex.
    apply existsb_exists in Hex as (q & Hq & Hb).
    apply andb_true_iff in Hb as [Hname Hqn].
    apply bool_decide_eq_true in Hname.
    apply list_elem_of_In in Hq.
    assert (q = param) as -> by by eapply nodup_names_inj.
    by rewrite Hn in Hqn.
Qed.

(** The declared type of a parameter after one pass over its callable. *)
Lemma declared_type_patch_obj o ps param :
  fn_signature o = inr ps → NoDup (map p_name ps) → param ∈ ps →
  declared_type (patch_obj o) param
  = match patch_outcome o, fn_annotations o with
    | Raised _, None => None
    | _, _ =>
        match declared_type o param with
        | Some ty => Some ty
        | None => if default_is_None param then Some TStr else None
        end
    end.
Proof.
  intros Hs Hnd Hin.
  unfold patch_obj, patch_outcome, declared_type. rewrite Hs.
  destruct (fn_annotations o) as [d|] eqn:Ha; cbn.
  - rewrite patched_lookup_param by done.
    destruct (needs_patch ps d); [|done]. by destruct (fn_setattr o).
  - destruct (needs_patch ps ∅) eqn:Hn.
    + destruct (fn_setattr o) as [e|] eqn:Hx; cbn; [by rewrite Ha|].
      rewrite patched_lookup_param by done. by rewrite lookup_empty.
    + rewrite Ha. cbn.
      destruct (default_is_None param) eqn:Hd; [|done].
      exfalso. eapply needs_patch_false_iff in Hn as [ty Hty]; [|done..].
      by rewrite lookup_empty in Hty.
Qed.


Lemma default_is_None_iff param :
  default_is_None param = true ↔ p_default param = Some PyNone.
Proof.
  unfold default_is_None.
  destruct (p_default param) as [[]|]; split; congruence.
Qed.

(** ** Claims about the sanitizing stage *)

(** C4, as stated, fails for a callable that has no annotations dictionary
    and refuses the assignment of one.  The builtin [sorted] has the
    parameter [key] with no declared type and the default [None]; the loop
    writes [str] into the fresh dictionary of line 37, the assignment of
    line 45 raises, and [key] has no declared type afterwards. *)
Lemma builtin_stays_untyped :
  fn_signature (builtins_heap 0)
  = inr [MkParam "iterable" None; MkParam "key" (Some PyNone);
         MkParam "reverse" (Some (PyBool false))]
  ∧ declared_type (builtins_heap 0) (MkParam "key" (Some PyNone)) = None
  ∧ default_is_None (MkParam "key" (Some PyNone)) = true
  ∧ declared_type (heap_of (sanitize builtins_tools builtins_heap) 0)
                  (MkParam "key" (Some PyNone)) = None
  ∧ declared_type (heap_of (sanitize builtins_tools builtins_heap) 0)
                  (MkParam "key" (Some PyNone)) ≠ Some TStr.
Proof.
  split; [reflexivity|]. split; [reflexivity|]. split; [reflexivity|].
  assert (declared_type (heap_of (sanitize builtins_tools builtins_heap) 0)
                        (MkParam "key" (Some PyNone)) = None) as H
    by (vm_compute; reflexivity).
  split; [exact H|]. rewrite H. discriminate.
Qed.

(** C4, amended.  For every tool list and every tool of it whose signature
    can be inspected: when the callable has an annotations dictionary of its
    own or accepts the assignment of one, the pass gives the declared type
    [str] to exactly the parameters with no declared type and a default that
    is [None], and the declared type of every other parameter is what it
    was (also when the callable had its own dictionary and then refused the
    assignment); when the callable has no annotations dictionary and
    refuses the assignment, the declared type of no parameter changes.  The
    signature of every callable, that is the number, the order and the
    defaults of its parameters, is never changed. *)
Theorem sanitize_rewrites_where_writable tools h tool ps param :
  tool ∈ tools →
  fn_signature (h (tool_fn tool)) = inr ps →
  NoDup (map p_name ps) →
  param ∈ ps →
  declared_type (heap_of (sanitize tools h) (tool_fn tool)) param
  = match fn_annotations (h (tool_fn tool)), fn_setattr (h (tool_fn tool)) with
    | None, Some _ => declared_type (h (tool_fn tool)) param
    | _, _ =>
        if bool_decide (declared_type (h (tool_fn tool)) param = None)
           && default_is_None param
        then Some TStr
        else declared_type (h (tool_fn tool)) param
    end
  ∧ ∀ l, fn_signature (heap_of (sanitize tools h) l) = fn_signature (h l).
Proof.
  intros Htool Hs Hnd Hin. split.
  - rewrite sanitize_heap_in by done.
    rewrite (declared_type_patch_obj _ ps) by done.
    unfold patch_outcome, declared_type. rewrite Hs.
    destruct (fn_annotations (h (tool_fn tool))) as [d|] eqn:Ha; cbn.
    + destruct (needs_patch ps d); [destruct (fn_setattr _)|];
        by destruct (d !! p_name param).
    + destruct (needs_patch ps ∅) eqn:Hn.
      * by destruct (fn_setattr (h (tool_fn tool))).
      * destruct (fn_setattr (h (tool_fn tool))); [|done].
        destruct (default_is_None param) eqn:Hd; [|done].
        exfalso. eapply needs_patch_false_iff in Hn as [ty Hty]; [|done..].
        by rewrite lookup_empty in Hty.
  - intros l. rewrite sanitize_heap.
    case_bool_decide; [apply patch_obj_signature | done].
Qed.

(** On the example registry: [lang] of [lookup] gains [str], [units] keeps
    its hint, [limit] stays without one. *)
Lemma sanitize_rewrites_where_writable_witness :
  declared_type (heap_of (sanitize registry_tools registry_heap) 1)
                (MkParam "lang" (Some PyNone)) = Some TStr
  ∧ declared_type (heap_of (sanitize registry_tools registry_heap) 1)
                  (MkParam "units" (Some PyNone))
    = Some (TOther "Optional[str]")
  ∧ declared_type (heap_of (sanitize registry_tools registry_heap) 1)
                  (MkParam "limit" (Some (PyInt 10))) = None.
Proof.
  assert (MkTool "lookup" 1 ∈ registry_tools) as Htool by decide_by_compute.
  assert (∀ param,
    param ∈ [MkParam "city" None; MkParam "units" (Some PyNone);
             MkParam "limit" (Some (PyInt 10)); MkParam "lang" (Some PyNone)] →
    declared_type (heap_of (sanitize registry_tools registry_heap) 1) param
    = (if bool_decide (declared_type (registry_heap 1) param = None)
          && default_is_None param
       then Some TStr else declared_type (registry_heap 1) param)) as H.
  { intros param Hin.
    refine (proj1 (sanitize_rewrites_where_writable registry_tools
                     registry_heap (MkTool "lookup" 1) _ param
                     Htool eq_refl _ Hin)).
    decide_by_compute. }
  split; [|split]; rewrite H; try reflexivity; decide_by_compute.
Defined.

(** C10.  A parameter with no declared type and no default at all keeps no
    declared type; a declared type changes only for a parameter whose
    default is exactly [None]. *)
Theorem no_default_left_unchanged tools h tool ps param :
  tool ∈ tools →
  fn_signature (h (tool_fn tool)) = inr ps →
  NoDup (map p_name ps) →
  param ∈ ps →
  (declared_type (h (tool_fn tool)) param = None →
   p_default param = None →
   declared_type (heap_of (sanitize tools h) (tool_fn tool)) param = None)
  ∧ (declared_type (heap_of (sanitize tools h) (tool_fn tool)) param
     ≠ declared_type (h (tool_fn tool)) param →
     p_default param = Some PyNone).
Proof.
  intros Htool Hs Hnd Hin.
  rewrite sanitize_heap_in by done.
  rewrite (declared_type_patch_obj _ ps) by done.
  split.
  - intros Hd Hp. rewrite Hd.
    assert (default_is_None param = false) as ->.
    { unfold default_is_None. by rewrite Hp. }
    by destruct (patch_outcome (h (tool_fn tool))),
                (fn_annotations (h (tool_fn tool))).
  - intros Hne. apply default_is_None_iff.
    destruct (default_is_None param); [done|]. exfalso. apply Hne.
    destruct (declared_type (h (tool_fn tool)) param) as [ty|] eqn:Hd.
    + destruct (patch_outcome (h (tool_fn tool))); try done.
      destruct (fn_annotations (h (tool_fn tool))) eqn:Ha; [done|].
      unfold declared_type in Hd. by rewrite Ha in Hd.
    + by destruct (patch_outcome (h (tool_fn tool))),
                  (fn_annotations (h (tool_fn tool))).
Qed.

(** On the example registry: [city] of [lookup], with no default, stays
    without a declared type. *)
Lemma no_default_left_unchanged_witness :
  declared_type (heap_of (sanitize registry_tools registry_heap) 1)
                (MkParam "city" None) = None.
Proof.
  assert (MkTool "lookup" 1 ∈ registry_tools) as Htool
    by (decide_by_compute).
  refine (proj1 (no_default_left_unchanged registry_tools registry_heap
                   (MkTool "lookup" 1) _ (MkParam "city" None)
                   Htool eq_refl _ _) eq_refl eq_refl).
  - decide_by_compute.
  - decide_by_compute.
Defined.



(** C6.  Running the stage again over the same tools, on the store the
    first run left, returns the same callables and leaves every callable as
    the first run left it. *)
Theorem sanitize_idempotent tools h :
  value_of (sanitize tools (heap_of (sanitize tools h)))
  = value_of (sanitize tools h)
  ∧ ∀ l, heap_of (sanitize tools (heap_of (sanitize tools h))) l
         = heap_of (sanitize tools h) l.
Proof.
  split.
  - by rewrite !sanitize_value.
  - intros l. rewrite (sanitize_heap tools (heap_of _)), sanitize_heap.
    case_bool_decide; [apply patch_obj_idem | done].
Qed.




(** ** Counting events *)

Lemma count_events_app p tr1 tr2 :
  count_events p (tr1 ++ tr2) = count_events p tr1 + count_events p tr2.
Proof. unfold count_events. by rewrite List.filter_app, length_app. Qed.

Lemma filter_tools_log p tools h :
  (∀ ev, p ev = true → is_network ev = true) →
  List.filter p (tools_log tools h) = [].
Proof.
  intros Hp.
  assert (∀ tr, (∀ ev, ev ∈ tr → is_log ev = true) → List.filter p tr = [])
    as Hall.
  { induction tr as [|ev tr IH]; intros Hlog; cbn; [done|].
    destruct (p ev) eqn:Hev.
    - apply Hp in Hev. specialize (Hlog ev (list_elem_of_here _ _)).
      unfold is_log in Hlog. by rewrite Hev in Hlog.
    - apply IH. intros ev' Hin. apply Hlog. by apply list_elem_of_further. }
  apply Hall. intros ev. apply tools_log_is_log.
Qed.

Lemma count_tools_log p tools h :
  (∀ ev, p ev = true → is_network ev = true) →
  count_events p (tools_log tools h) = 0.
Proof. intros Hp. unfold count_events. by rewrite filter_tools_log. Qed.


Lemma notification_is_network ev :
  is_notification_send ev = true → is_network ev = true.
Proof. by destruct ev. Qed.

Lemma tools_log_kind tools h ev :
  ev ∈ tools_log tools h →
  (∃ msg, ev = LogDebug msg) ∨ (∃ msg, ev = LogWarning msg).
Proof.
  revert h. induction tools as [|tool rest IH]; intros h; cbn.
  - intros Hev. by apply elem_of_nil in Hev.
  - intros Hev. apply elem_of_app in Hev as [Hev|Hev]; [|by eapply IH].
    destruct (patch_outcome (h (tool_fn tool))); cbn in Hev.
    + apply list_elem_of_singleton in Hev as ->. left. by eexists.
    + by apply elem_of_nil in Hev.
    + apply list_elem_of_singleton in Hev as ->. right. by eexists.
Qed.

(** ** Claims about the pipeline *)

(** C3.  When one of the four required values is absent or empty, the run
    logs the omission and ends: the trace is that one error log, it holds
    no network call, nothing is raised and no callable is touched. *)
Theorem missing_input_aborts environ w h name :
  name ∈ required_names →
  getenv environ name = None ∨ getenv environ name = Some "" →
  trace_of (main environ w h) = [LogError missing_env_msg]
  ∧ count_events is_network (trace_of (main environ w h)) = 0
  ∧ value_of (main environ w h) = inr tt
  ∧ ∀ l, heap_of (main environ w h) l = h l.
Proof.
  intros Hname Hmiss.
  assert (truthy (getenv environ name) = false) as Hfalse.
  { by destruct Hmiss as [-> | ->]. }
  assert (forallb truthy (map (getenv environ) required_names) = false) as Hall.
  { apply not_true_is_false. intros Hall.
    rewrite forallb_forall in Hall.
    rewrite (Hall (getenv environ name)) in Hfalse; [done|].
    apply in_map. by apply list_elem_of_In. }
  rewrite main_run, Hall. done.
Qed.

(** Without the messaging credential the run is the one error log. *)
Lemma missing_input_aborts_witness :
  trace_of (main env_no_token (world_answering (Some "It will be sunny."))
                 registry_heap)
  = [LogError missing_env_msg].
Proof.
  refine (proj1 (missing_input_aborts env_no_token _ registry_heap
                   "TELEGRAM_BOT_TOKEN" _ (or_introl eq_refl))).
  decide_by_compute.
Defined.

(** ** Strings: length, slices and character counts *)

Lemma str_app_cons c s1 s2 : String c s1 +:+ s2 = String c (s1 +:+ s2).
Proof. reflexivity. Qed.

Lemma str_length_app s1 s2 :
  String.length (s1 +:+ s2) = String.length s1 + String.length s2.
Proof.
  induction s1 as [|c s1 IH]; [done|].
  rewrite str_app_cons. cbn. by rewrite IH.
Qed.



Lemma slice_to_app p n s :
  slice_to (String.length p + n) (p +:+ s) = p +:+ slice_to n s.
Proof.
  unfold slice_to. induction p as [|c p IH]; [done|].
  rewrite !str_app_cons. cbn. by rewrite IH.
Qed.



(** The text of the notification: the prefix, then the message cut to what
    fits into 4000 characters. *)
Lemma notification_text e :
  slice_to 4000 (error_prefix +:+ e) = error_prefix +:+ slice_to 3969 e.
Proof.
  change 4000 with (String.length error_prefix + 3969).
  apply slice_to_app.
Qed.

(** ** What [process] leaves in the trace *)


(** The stages an exception can leave [process] from: the client, the tool
    list, the completion call, the primary post and its status check.  A
    failure of the pass over a tool is not among them. *)
Lemma process_raises w api_key bot_token chat_id message h e :
  value_of (process w api_key bot_token chat_id message h) = inl e ↔
  genai_Client w api_key = Some e
  ∨ genai_Client w api_key = None
    ∧ (list_tools w = inl e
       ∨ ∃ tools, list_tools w = inr tools
         ∧ (generate_content w (heap_of (sanitize tools h)) model_id message
              (map tool_fn tools) = inl e
            ∨ ∃ text,
                generate_content w (heap_of (sanitize tools h)) model_id
                  message (map tool_fn tools) = inr text
                ∧ (requests_post w (telegram_url bot_token)
                     (primary_payload chat_id (final_text_of text)) = inl e
                   ∨ ∃ res,
                       requests_post w (telegram_url bot_token)
                         (primary_payload chat_id (final_text_of text))
                       = inr res
                       ∧ raise_for_status res = Some e))).
Proof.
  rewrite process_run.
  destruct (genai_Client w api_key) as [e0|].
  { cbn. split; [intros [= ->]; by left | intros [[= ->]|[? _]]; done]. }
  destruct (list_tools w) as [e0|tools].
  { cbn. split.
    - intros [= ->]. right. split; [done|]. by left.
    - intros [?|[_ [[= ->]|(? & ? & _)]]]; done. }
  cbv zeta.
  destruct (generate_content _ _ _ _ _) as [e0|text] eqn:Hg.
  { cbn. split.
    - intros [= ->]. right. split; [done|]. right. exists tools.
      split; [done|]. left. done.
    - intros [?|[_ [?|(tools' & [= <-] & [Hx|(text & Hx & _)])]]]; try done.
      + rewrite Hg in Hx. by injection Hx as ->.
      + by rewrite Hg in Hx. }
  destruct (requests_post _ _ _) as [e0|res] eqn:Hp.
  { cbn. split.
    - intros [= ->]. right. split; [done|]. right. exists tools.
      split; [done|]. right. exists text. split; [done|]. by left.
    - intros [?|[_ [?|(tools' & [= <-] & [Hx|(text' & Hx & Hy)])]]]; try done.
      + by rewrite Hg in Hx.
      + rewrite Hg in Hx. injection Hx as <-.
        destruct Hy as [Hy|(res & Hy & _)]; rewrite Hp in Hy; congruence. }
  destruct (raise_for_status res) as [e0|] eqn:Hr.
  - cbn. split.
    + intros [= ->]. right. split; [done|]. right. exists tools.
      split; [done|]. right. exists text. split; [done|]. right. by exists res.
    + intros [?|[_ [?|(tools' & [= <-] & [Hx|(text' & Hx & Hy)])]]]; try done.
      * by rewrite Hg in Hx.
      * rewrite Hg in Hx. injection Hx as <-.
        destruct Hy as [Hy|(res' & Hy & Hz)]; rewrite Hp in Hy; [done|].
        injection Hy as <-. congruence.
  - cbn. split; [done|].
    intros [?|[_ [?|(tools' & [= <-] & [Hx|(text' & Hx & Hy)])]]]; try done.
    + by rewrite Hg in Hx.
    + rewrite Hg in Hx. injection Hx as <-.
      destruct Hy as [Hy|(res' & Hy & Hz)]; rewrite Hp in Hy; [done|].
      injection Hy as <-. congruence.
Qed.
















Lemma final_text_of_empty text :
  text = None ∨ text = Some "" → final_text_of text = fallback_text.
Proof. by intros [-> | ->]. Qed.

(** C8.  When the completion returns no text or the empty text, the run
    goes on to the primary send, and that send carries the fallback text
    with the Markdown render mode.  Nothing before the send is an error log
    or a post; when the send is confirmed the run ends there with the
    success log, as for any other answer. *)
Theorem empty_answer_sends_fallback environ w h tools text :
  forallb truthy (map (getenv environ) required_names) = true →
  genai_Client w (getenv environ "GOOGLE_API_KEY") = None →
  list_tools w = inr tools →
  generate_content w (heap_of (sanitize tools h)) model_id
    (getenv environ "TELEGRAM_MESSAGE") (map tool_fn tools) = inr text →
  text = None ∨ text = Some "" →
  ∃ pre post,
    trace_of (main environ w h)
    = pre
      ++ CallPost (telegram_url (getenv environ "TELEGRAM_BOT_TOKEN"))
           [("chat_id", getenv environ "TELEGRAM_CHAT_ID");
            ("text", Some fallback_text);
            ("parse_mode", Some "Markdown")]
      :: post
    ∧ (∀ ev, ev ∈ pre → is_error_log ev = false ∧ is_post ev = false)
    ∧ (∀ res,
         requests_post w (telegram_url (getenv environ "TELEGRAM_BOT_TOKEN"))
           [("chat_id", getenv environ "TELEGRAM_CHAT_ID");
            ("text", Some fallback_text);
            ("parse_mode", Some "Markdown")] = inr res →
         raise_for_status res = None →
         post = [sent_log]).
Proof.
  intros Henv Hclient Htools Hgen Hempty.
  apply final_text_of_empty in Hempty as Hfinal.
  rewrite main_run, Henv. cbv zeta.
  rewrite process_run, Hclient, Htools. cbv zeta. rewrite Hgen.
  unfold upto_post, primary_payload. rewrite Hfinal.
  set (url := telegram_url _).
  set (payload := [("chat_id", _); ("text", Some fallback_text); _]).
  set (start := LogInfo ("Processing message for chat " +:+ _)).
  set (cut := LogInfo ("AI Response truncated: " +:+ _)).
  set (pre := start :: upto_generate (getenv environ "TELEGRAM_MESSAGE")
                         tools h ++ [cut]).
  assert (∀ ev, ev ∈ pre → is_error_log ev = false ∧ is_post ev = false)
    as Hpre.
  { intros ev Hin. unfold pre in Hin.
    apply elem_of_cons in Hin as [->|Hin]; [done|].
    apply elem_of_app in Hin as [Hin|Hin].
    - unfold upto_generate in Hin.
      apply elem_of_app in Hin as [Hin|Hin].
      + by apply tools_log_kind in Hin as [[msg ->]|[msg ->]].
      + apply elem_of_cons in Hin as [->|Hin]; [done|].
        apply elem_of_cons in Hin as [->|Hin]; [done|].
        by apply elem_of_nil in Hin.
    - apply elem_of_cons in Hin as [->|Hin]; [done|].
      by apply elem_of_nil in Hin. }
  exists pre.
  destruct (requests_post w url payload) as [e|res] eqn:Hpost.
  { exists (recovery_events (getenv environ "TELEGRAM_BOT_TOKEN")
              (getenv environ "TELEGRAM_CHAT_ID") (inl e)).
    cbn [trace_of value_of fst snd].
    split; [|split; [done|done]].
    unfold pre. cbn. rewrite <- !app_assoc. cbn. reflexivity. }
  destruct (raise_for_status res) as [e|] eqn:Hstatus.
  { exists (recovery_events (getenv environ "TELEGRAM_BOT_TOKEN")
              (getenv environ "TELEGRAM_CHAT_ID") (inl e)).
    cbn [trace_of value_of fst snd].
    split; [|split; [done|]].
    - unfold pre. cbn. rewrite <- !app_assoc. cbn. reflexivity.
    - intros res' [= <-]. by rewrite Hstatus. }
  exists [sent_log]. cbn [trace_of value_of fst snd recovery_events].
  split; [|done].
  unfold pre. cbn. rewrite app_nil_r, <- !app_assoc. cbn. reflexivity.
Qed.

(** An empty answer is followed by the primary send of the fallback text. *)
Lemma empty_answer_sends_fallback_witness :
  CallPost "https://api.telegram.org/bot123:abc/sendMessage"
    [("chat_id", Some "42");
     ("text", Some "I couldn't process that request properly. Please try again.");
     ("parse_mode", Some "Markdown")]
  ∈ trace_of (main env_full (world_answering (Some "")) registry_heap).
Proof.
  destruct (empty_answer_sends_fallback env_full (world_answering (Some ""))
              registry_heap registry_tools (Some "")
              eq_refl eq_refl eq_refl eq_refl (or_intror eq_refl))
    as (pre & post & Heq & _).
  rewrite Heq. apply elem_of_app. right. apply list_elem_of_here.
Defined.

(** ** Further properties of the sanitizing stage *)

Lemma needs_patch_declared o ps :
  fn_signature o = inr ps →
  needs_patch ps (default ∅ (fn_annotations o)) = false
  ↔ ∀ param, param ∈ ps → default_is_None param = true →
             is_Some (declared_type o param).
Proof.
  intros Hs. rewrite needs_patch_false_iff. unfold declared_type.
  destruct (fn_annotations o) as [d|]; cbn; [done|].
  split; intros H param Hin Hn; specialize (H param Hin Hn).
  - rewrite lookup_empty in H. by destruct H.
  - by destruct H.
Qed.

Lemma hints_cover_untouched o :
  hints_cover o → patch_outcome o = Untouched ∧ patch_obj o = o.
Proof.
  intros (ps & Hs & Hcov).
  apply (needs_patch_declared o ps Hs) in Hcov.
  unfold patch_outcome, patch_obj. rewrite Hs, Hcov.
  split; [done|].
  destruct (fn_annotations o) as [d|] eqn:Ha; cbn in Hcov.
  - rewrite needs_patch_false by done. destruct o; cbn in *. by subst.
  - by rewrite Hcov.
Qed.

Lemma tools_log_untouched tools h :
  (∀ tool, tool ∈ tools → hints_cover (h (tool_fn tool))) →
  tools_log tools h = [].
Proof.
  induction tools as [|tool rest IH]; intros Hall; cbn; [done|].
  destruct (hints_cover_untouched (h (tool_fn tool))) as [-> ->].
  { apply Hall, list_elem_of_here. }
  cbn. rewrite (tools_log_ext rest _ h).
  - apply IH. intros t Ht. by apply Hall, list_elem_of_further.
  - intros l. destruct (decide (tool_fn tool = l)) as [<-|Hne].
    + by rewrite fn_lookup_insert.
    + by rewrite fn_lookup_insert_ne.
Qed.

(** X1.  No-op on covered input: when the hints of every tool's callable
    cover its parameters, the stage changes no callable and logs nothing,
    and it does not even attempt the assignment of [__annotations__]. *)
Theorem sanitize_noop_when_covered tools h :
  (∀ tool, tool ∈ tools → hints_cover (h (tool_fn tool))) →
  sanitize tools h = (heap_of (sanitize tools h), [], inr (map tool_fn tools))
  ∧ ∀ l, heap_of (sanitize tools h) l = h l.
Proof.
  intros Hall. destruct (sanitize_run tools h) as (h' & Hrun & Hh').
  rewrite Hrun. cbn [heap_of fst]. split.
  - by rewrite tools_log_untouched.
  - intros l. rewrite Hh'. case_bool_decide as Hin; [|done].
    apply list_elem_of_In, in_map_iff in Hin as (tool & <- & Hin).
    apply hints_cover_untouched, Hall. by apply list_elem_of_In.
Qed.

(** The tool [lookup] once all its [None] defaults carry hints. *)
Lemma sanitize_noop_when_covered_witness :
  heap_of (sanitize [MkTool "lookup" 1]
             (heap_of (sanitize registry_tools registry_heap))) 1
  = heap_of (sanitize registry_tools registry_heap) 1.
Proof.
  refine (proj2 (sanitize_noop_when_covered [MkTool "lookup" 1]
                   (heap_of (sanitize registry_tools registry_heap)) _) 1).
  intros tool Hin. apply list_elem_of_singleton in Hin as ->.
  eexists. split; [vm_compute; reflexivity|].
  intros param Hp Hn.
  repeat (apply elem_of_cons in Hp as [->|Hp]); try discriminate Hn;
    try (by apply elem_of_nil in Hp);
    apply (bool_decide_unpack _); vm_compute; exact I.
Defined.

(** X2.  What the patch is for: after the stage, every parameter with a
    [None] default of a tool's callable has a declared type, provided the
    signature can be inspected and the callable either has an annotations
    dictionary or accepts the assignment of one. *)
Theorem none_defaults_typed_after tools h tool ps param :
  tool ∈ tools →
  fn_signature (h (tool_fn tool)) = inr ps →
  is_Some (fn_annotations (h (tool_fn tool)))
  ∨ fn_setattr (h (tool_fn tool)) = None →
  param ∈ ps →
  default_is_None param = true →
  is_Some (declared_type (heap_of (sanitize tools h) (tool_fn tool)) param).
Proof.
  intros Htool Hs Hok Hin Hn.
  rewrite sanitize_heap_in by done.
  pose proof (needs_patch_patched ps) as Hpp.
  unfold patch_obj, declared_type. rewrite Hs.
  destruct (fn_annotations (h (tool_fn tool))) as [d|] eqn:Ha; cbn.
  - by eapply needs_patch_false_iff in Hpp.
  - destruct Hok as [[? ?]|Hx]; [done|]. rewrite Hx.
    destruct (needs_patch ps ∅) eqn:Hnp; cbn.
    + by eapply needs_patch_false_iff in Hpp.
    + rewrite Ha. cbn.
      eapply needs_patch_false_iff in Hnp as [? Hl]; [|done..].
      by rewrite lookup_empty in Hl.
Qed.

(** On the example registry, [city] of the bound method is typed after the
    stage although the assignment was refused. *)
Lemma none_defaults_typed_after_witness :
  is_Some (declared_type (heap_of (sanitize registry_tools registry_heap) 2)
                         (MkParam "city" (Some PyNone))).
Proof.
  refine (none_defaults_typed_after registry_tools registry_heap
            (MkTool "report" 2) _ (MkParam "city" (Some PyNone))
            _ eq_refl (or_introl _) _ eq_refl).
  - decide_by_compute.
  - by eexists.
  - decide_by_compute.
Defined.

Lemma patch_outcome_patch_obj o : patch_outcome (patch_obj o) ≠ Patched.
Proof.
  destruct o as [[e|ps] [d|] [x|]]; unfold patch_outcome, patch_obj; cbn;
    try done.
  - by rewrite needs_patch_patched.
  - by rewrite needs_patch_patched.
  - destruct (needs_patch ps ∅) eqn:Hn; cbn; by rewrite ?Hn.
  - destruct (needs_patch ps ∅) eqn:Hn; cbn; [|by rewrite Hn].
    by rewrite needs_patch_patched.
Qed.

Lemma tools_log_settled tools h :
  (∀ tool, tool ∈ tools → patch_outcome (h (tool_fn tool)) ≠ Patched) →
  List.filter is_debug_log (tools_log tools h) = [].
Proof.
  revert h. induction tools as [|tool rest IH]; intros h Hall; cbn; [done|].
  rewrite List.filter_app.
  assert (List.filter is_debug_log
            (patch_log tool (patch_outcome (h (tool_fn tool)))) = []) as ->.
  { pose proof (Hall tool (list_elem_of_here _ _)) as Hne.
    by destruct (patch_outcome (h (tool_fn tool))). }
  cbn. apply IH. intros t Ht.
  destruct (decide (tool_fn tool = tool_fn t)) as [Heq|Hne].
  - rewrite Heq, fn_lookup_insert. apply patch_outcome_patch_obj.
  - rewrite fn_lookup_insert_ne by done.
    by apply Hall, list_elem_of_further.
Qed.

(** X3.  A second run of the stage over the same tools, on the store the
    first run left, reports no patch: its log holds no
    ["Patched type hints for tool: ..."] line. *)
Theorem second_run_reports_no_patch tools h :
  List.filter is_debug_log
    (trace_of (sanitize tools (heap_of (sanitize tools h)))) = [].
Proof.
  destruct (sanitize_run tools (heap_of (sanitize tools h)))
    as (h2 & -> & _).
  cbn [trace_of fst snd]. apply tools_log_settled. intros tool Hin.
  rewrite sanitize_heap_in by done. apply patch_outcome_patch_obj.
Qed.

Lemma patch_log_length tool r : (List.length (patch_log tool r) ≤ 1)%nat.
Proof. destruct r; cbn; lia. Qed.

Lemma tools_log_length tools h :
  (List.length (tools_log tools h) ≤ List.length tools)%nat.
Proof.
  revert h. induction tools as [|tool rest IH]; intros h; cbn; [lia|].
  rewrite length_app.
  pose proof (patch_log_length tool (patch_outcome (h (tool_fn tool)))).
  specialize (IH (<[tool_fn tool:=patch_obj (h (tool_fn tool))]> h)). lia.
Qed.

(** X4.  The stage leaves at most one log line per tool, each a debug or a
    warning line, and makes no network call. *)
Theorem sanitize_logs_once_per_tool tools h :
  (List.length (trace_of (sanitize tools h)) ≤ List.length tools)%nat
  ∧ count_events is_network (trace_of (sanitize tools h)) = 0
  ∧ ∀ ev, ev ∈ trace_of (sanitize tools h) →
          (∃ msg, ev = LogDebug msg) ∨ (∃ msg, ev = LogWarning msg).
Proof.
  destruct (sanitize_run tools h) as (h' & -> & _). cbn [trace_of fst snd].
  split; [apply tools_log_length|]. split.
  - by apply count_tools_log.
  - apply tools_log_kind.
Qed.

(** ** Further properties of the pipeline *)

Lemma truthy_iff v : truthy v = true ↔ ∃ s, v = Some s ∧ s ≠ "".
Proof.
  destruct v as [s|]; cbn.
  - rewrite negb_true_iff, String.eqb_neq. split.
    + intros Hne. by exists s.
    + by intros (s' & [= <-] & Hne).
  - split; [done|]. by intros (s & ? & _).
Qed.

Lemma env_ok_iff environ :
  forallb truthy (map (getenv environ) required_names) = true
  ↔ ∀ name, name ∈ required_names →
            ∃ s, getenv environ name = Some s ∧ s ≠ "".
Proof.
  rewrite forallb_forall. split.
  - intros H name Hin. apply truthy_iff, H, in_map. by apply list_elem_of_In.
  - intros H v Hv. apply in_map_iff in Hv as (name & <- & Hin).
    apply truthy_iff, H. by apply list_elem_of_In.
Qed.

(** Splitting the membership of an event in a trace of the pipeline. *)
Ltac split_elem H :=
  repeat match type of H with
         | _ ∈ [] => by apply elem_of_nil in H
         | _ ∈ _ :: _ => apply elem_of_cons in H as [H|H]
         | _ ∈ _ ++ _ => apply elem_of_app in H as [H|H]
         | _ ∈ upto_generate _ _ _ => unfold upto_generate in H
         | _ ∈ upto_post _ _ _ => unfold upto_post in H
         | _ ∈ recovery_events _ _ _ => unfold recovery_events in H
         end.

(** Every post of a run is the primary send of the text chosen for the
    answer, or the notification of the exception that left [process]. *)
Lemma main_post_cases environ w h url payload :
  CallPost url payload ∈ trace_of (main environ w h) →
  forallb truthy (map (getenv environ) required_names) = true
  ∧ url = telegram_url (getenv environ "TELEGRAM_BOT_TOKEN")
  ∧ ((∃ text, payload = primary_payload (getenv environ "TELEGRAM_CHAT_ID")
                          (final_text_of text))
     ∨ (∃ e, payload = notification_payload
                         (getenv environ "TELEGRAM_CHAT_ID") e)).
Proof.
  rewrite main_run.
  destruct (forallb truthy (map (getenv environ) required_names)).
  2:{ cbn. intros Hin. split_elem Hin. done. }
  cbv zeta. rewrite process_run.
  destruct (genai_Client w _) as [e|].
  { cbn. intros Hin. split_elem Hin; try done.
    injection Hin as -> ->. split; [done|]. split; [done|]. right. by exists e. }
  destruct (list_tools w) as [e|tools].
  { cbn. intros Hin. split_elem Hin; try done.
    injection Hin as -> ->. split; [done|]. split; [done|]. right. by exists e. }
  cbv zeta.
  destruct (generate_content _ _ _ _ _) as [e|text].
  { cbn [trace_of value_of fst snd]. intros Hin. split_elem Hin; try done.
    - by apply tools_log_kind in Hin as [[? ?]|[? ?]].
    - injection Hin as -> ->. split; [done|]. split; [done|].
      right. by exists e. }
  destruct (requests_post _ _ _) as [e|res].
  { cbn [trace_of value_of fst snd]. intros Hin. split_elem Hin; try done.
    - by apply tools_log_kind in Hin as [[? ?]|[? ?]].
    - injection Hin as -> ->. split; [done|]. split; [done|].
      left. by exists text.
    - injection Hin as -> ->. split; [done|]. split; [done|].
      right. by exists e. }
  destruct (raise_for_status res) as [e|].
  { cbn [trace_of value_of fst snd]. intros Hin. split_elem Hin; try done.
    - by apply tools_log_kind in Hin as [[? ?]|[? ?]].
    - injection Hin as -> ->. split; [done|]. split; [done|].
      left. by exists text.
    - injection Hin as -> ->. split; [done|]. split; [done|].
      right. by exists e. }
  cbn [trace_of value_of fst snd]. intros Hin. split_elem Hin; try done.
  - by apply tools_log_kind in Hin as [[? ?]|[? ?]].
  - injection Hin as -> ->. split; [done|]. split; [done|].
    left. by exists text.
Qed.

Lemma count_events_cons p ev tr :
  count_events p (ev :: tr) = (if p ev then 1 else 0) + count_events p tr.
Proof. unfold count_events. cbn. by destruct (p ev). Qed.

Lemma final_text_of_nonempty text : final_text_of text ≠ "".
Proof.
  unfold final_text_of. destruct (truthy text) eqn:Ht; [|done].
  apply truthy_iff in Ht as (s & -> & Hne). done.
Qed.

Lemma notification_text_nonempty e : slice_to 4000 (error_prefix +:+ e) ≠ "".
Proof. rewrite notification_text. done. Qed.

(** X8.  Every post of a run goes to the send-message address of the
    configured bot token and names the configured chat; both values are
    present and not empty whenever a post is made. *)
Theorem posts_go_to_configured_chat environ w h url payload :
  CallPost url payload ∈ trace_of (main environ w h) →
  ∃ token chat,
    getenv environ "TELEGRAM_BOT_TOKEN" = Some token ∧ token ≠ ""
    ∧ getenv environ "TELEGRAM_CHAT_ID" = Some chat ∧ chat ≠ ""
    ∧ url = "https://api.telegram.org/bot" +:+ token +:+ "/sendMessage"
    ∧ ("chat_id", Some chat) ∈ payload.
Proof.
  intros Hin. apply main_post_cases in Hin as (Henv & -> & Hpay).
  pose proof (proj1 (env_ok_iff environ) Henv) as Hall.
  destruct (Hall "TELEGRAM_BOT_TOKEN") as (token & Htoken & Htne);
    [decide_by_compute|].
  destruct (Hall "TELEGRAM_CHAT_ID") as (chat & Hchat & Hcne);
    [decide_by_compute|].
  exists token, chat. rewrite Htoken, Hchat.
  split; [done|]. split; [done|]. split; [done|]. split; [done|].
  split; [done|].
  destruct Hpay as [(text & ->)|(e & ->)];
    unfold primary_payload, notification_payload; rewrite Hchat;
    apply list_elem_of_here.
Qed.

(** In the run whose completion call fails, the notification goes to bot
    [123:abc] and chat [42]. *)
Lemma posts_go_to_configured_chat_witness :
  ∃ token chat,
    getenv env_full "TELEGRAM_BOT_TOKEN" = Some token ∧ token ≠ ""
    ∧ getenv env_full "TELEGRAM_CHAT_ID" = Some chat ∧ chat ≠ ""
    ∧ "https://api.telegram.org/bot123:abc/sendMessage"
      = "https://api.telegram.org/bot" +:+ token +:+ "/sendMessage"
    ∧ ("chat_id", Some chat)
      ∈ [("chat_id", Some "42");
         ("text", Some "Sorry, I encountered an error: connection reset")].
Proof.
  refine (posts_go_to_configured_chat env_full
            (world_failing "connection reset") registry_heap _ _ _).
  decide_by_compute.
Defined.

(** X9.  No post of a run carries an empty text: the text of every post is
    a non-empty string. *)
Theorem posts_carry_text environ w h url payload :
  CallPost url payload ∈ trace_of (main environ w h) →
  ∃ text, ("text", Some text) ∈ payload ∧ text ≠ "".
Proof.
  intros Hin. apply main_post_cases in Hin as (_ & _ & Hpay).
  destruct Hpay as [(text & ->)|(e & ->)].
  - exists (final_text_of text). split.
    + apply list_elem_of_further, list_elem_of_here.
    + apply final_text_of_nonempty.
  - exists (slice_to 4000 (error_prefix +:+ e)). split.
    + apply list_elem_of_further, list_elem_of_here.
    + apply notification_text_nonempty.
Qed.

(** When the model answers with the empty string, the post still carries a
    text. *)
Lemma posts_carry_text_witness :
  ∃ text,
    ("text", Some text)
    ∈ [("chat_id", Some "42");
       ("text",
        Some "I couldn't process that request properly. Please try again.");
       ("parse_mode", Some "Markdown")]
    ∧ text ≠ "".
Proof.
  refine (posts_carry_text env_full (world_answering (Some ""))
            registry_heap "https://api.telegram.org/bot123:abc/sendMessage"
            _ _).
  decide_by_compute.
Defined.

Lemma filter_generate_upto_generate message tools h :
  List.filter is_generate (upto_generate message tools h)
  = [CallGenerate model_id message (map tool_fn tools)].
Proof.
  unfold upto_generate. rewrite List.filter_app.
  rewrite filter_tools_log by (by intros []). done.
Qed.





(** X14.  The store after a run: when the validation passes, the client is
    built and the tools are listed, it is the store the sanitizing stage
    left, whatever the completion call and the posts did (the patches are
    not undone on failure); in every other run it is the store the run
    started on. *)
Theorem main_store environ w h l :
  heap_of (main environ w h) l
  = if forallb truthy (map (getenv environ) required_names) then
      match genai_Client w (getenv environ "GOOGLE_API_KEY"), list_tools w with
      | None, inr tools => heap_of (sanitize tools h) l
      | _, _ => h l
      end
    else h l.
Proof.
  rewrite main_run.
  destruct (forallb truthy _); [|done]. cbv zeta.
  rewrite process_run.
  destruct (genai_Client w _); [done|].
  destruct (list_tools w) as [e|tools]; [done|]. cbv zeta.
  destruct (generate_content _ _ _ _ _); [done|].
  destruct (requests_post _ _ _) as [e|res]; [done|].
  by destruct (raise_for_status res).
Qed.

Lemma count_network_upto_generate message tools h :
  count_events is_network (upto_generate message tools h) = 1.
Proof.
  unfold upto_generate. rewrite count_events_app.
  by rewrite count_tools_log by done.
Qed.

(** X13.  A run makes at most three network calls, however many tools the
    registry holds: at most one completion call, then at most one primary
    send, then at most one notification; nothing is retried. *)
Theorem at_most_three_network_calls environ w h :
  (count_events is_network (trace_of (main environ w h)) ≤ 3)%nat
  ∧ (count_events is_generate (trace_of (main environ w h)) ≤ 1)%nat
  ∧ (count_events is_post (trace_of (main environ w h)) ≤ 2)%nat.
Proof.
  rewrite main_run.
  destruct (forallb truthy _); [|cbn; lia]. cbv zeta.
  rewrite process_run.
  set (start := LogInfo _).
  assert (∀ p tr, p start = false →
            count_events p (start :: tr) = count_events p tr) as Hstart.
  { intros p tr Hp. by rewrite count_events_cons, Hp. }
  destruct (genai_Client w _) as [e|]; [cbn; lia|].
  destruct (list_tools w) as [e|tools]; [cbn; lia|]. cbv zeta.
  assert (∀ message, count_events is_generate (upto_generate message tools h)
                     = 1) as Hgen.
  { intros message. unfold count_events.
    by rewrite filter_generate_upto_generate. }
  assert (∀ message, count_events is_post (upto_generate message tools h) = 0)
    as Hpost.
  { intros message. unfold upto_generate. rewrite count_events_app.
    by rewrite count_tools_log by (by intros []). }
  destruct (generate_content _ _ _ _ _) as [e|text].
  { cbn [trace_of value_of fst snd recovery_events].
    rewrite !Hstart, !count_events_app, count_network_upto_generate,
      Hgen, Hpost by done.
    cbn. lia. }
  destruct (requests_post _ _ _) as [e|res];
    [|destruct (raise_for_status res) as [e|]];
    cbn [trace_of value_of fst snd recovery_events];
    rewrite !Hstart, !count_events_app, count_network_upto_generate,
      Hgen, Hpost by done;
    cbn; lia.
Qed.

(** X12.  A non-empty answer is forwarded as it is: when the completion
    returns a non-empty text, the run goes on to the primary send of
    exactly that text, whatever its length, with the Markdown render mode;
    nothing before the send is an error log or a post, and when the send is
    confirmed the run ends with the success log. *)
Theorem answer_forwarded_verbatim environ w h tools answer :
  forallb truthy (map (getenv environ) required_names) = true →
  genai_Client w (getenv environ "GOOGLE_API_KEY") = None →
  list_tools w = inr tools →
  generate_content w (heap_of (sanitize tools h)) model_id
    (getenv environ "TELEGRAM_MESSAGE") (map tool_fn tools)
  = inr (Some answer) →
  answer ≠ "" →
  ∃ pre post,
    trace_of (main environ w h)
    = pre
      ++ CallPost (telegram_url (getenv environ "TELEGRAM_BOT_TOKEN"))
           [("chat_id", getenv environ "TELEGRAM_CHAT_ID");
            ("text", Some answer);
            ("parse_mode", Some "Markdown")]
      :: post
    ∧ (∀ ev, ev ∈ pre → is_error_log ev = false ∧ is_post ev = false)
    ∧ (∀ res,
         requests_post w (telegram_url (getenv environ "TELEGRAM_BOT_TOKEN"))
           [("chat_id", getenv environ "TELEGRAM_CHAT_ID");
            ("text", Some answer);
            ("parse_mode", Some "Markdown")] = inr res →
         raise_for_status res = None →
         post = [sent_log]).
Proof.
  intros Henv Hclient Htools Hgen Hne.
  assert (final_text_of (Some answer) = answer) as Hfinal.
  { unfold final_text_of. cbn. apply String.eqb_neq in Hne. by rewrite Hne. }
  rewrite main_run, Henv. cbv zeta.
  rewrite process_run, Hclient, Htools. cbv zeta. rewrite Hgen.
  unfold upto_post, primary_payload. rewrite Hfinal.
  set (url := telegram_url _).
  set (payload := [("chat_id", _); ("text", Some answer); _]).
  set (start := LogInfo ("Processing message for chat " +:+ _)).
  set (cut := LogInfo ("AI Response truncated: " +:+ _)).
  set (pre := start :: upto_generate (getenv environ "TELEGRAM_MESSAGE")
                         tools h ++ [cut]).
  assert (∀ ev, ev ∈ pre → is_error_log ev = false ∧ is_post ev = false)
    as Hpre.
  { intros ev Hin. unfold pre in Hin. split_elem Hin; try (by subst ev).
    by apply tools_log_kind in Hin as [[msg ->]|[msg ->]]. }
  exists pre.
  destruct (requests_post w url payload) as [e|res] eqn:Hpost.
  { exists (recovery_events (getenv environ "TELEGRAM_BOT_TOKEN")
              (getenv environ "TELEGRAM_CHAT_ID") (inl e)).
    cbn [trace_of value_of fst snd].
    split; [|split; [done|done]].
    unfold pre. cbn. rewrite <- !app_assoc. cbn. reflexivity. }
  destruct (raise_for_status res) as [e|] eqn:Hstatus.
  { exists (recovery_events (getenv environ "TELEGRAM_BOT_TOKEN")
              (getenv environ "TELEGRAM_CHAT_ID") (inl e)).
    cbn [trace_of value_of fst snd].
    split; [|split; [done|]].
    - unfold pre. cbn. rewrite <- !app_assoc. cbn. reflexivity.
    - intros res' [= <-]. by rewrite Hstatus. }
  exists [sent_log]. cbn [trace_of value_of fst snd recovery_events].
  split; [|done].
  unfold pre. cbn. rewrite app_nil_r, <- !app_assoc. cbn. reflexivity.
Qed.

(** The answer [It will be sunny.] reaches the chat as it is. *)
Lemma answer_forwarded_verbatim_witness :
  CallPost "https://api.telegram.org/bot123:abc/sendMessage"
    [("chat_id", Some "42"); ("text", Some "It will be sunny.");
     ("parse_mode", Some "Markdown")]
  ∈ trace_of (main env_full (world_answering (Some "It will be sunny."))
                   registry_heap).
Proof.
  destruct (answer_forwarded_verbatim env_full
              (world_answering (Some "It will be sunny."))
              registry_heap registry_tools "It will be sunny."
              eq_refl eq_refl eq_refl eq_refl)
    as (pre & post & Heq & _); [done|].
  rewrite Heq. apply elem_of_app. right. apply list_elem_of_here.
Defined.



(** ** How runs of the sanitizing stage compose *)

(** X5.  The store the stage leaves depends only on which callables the
    tools name, not on their order nor on how often a callable occurs. *)
Theorem sanitize_store_order_free tools1 tools2 h l :
  (∀ f, f ∈ map tool_fn tools1 ↔ f ∈ map tool_fn tools2) →
  heap_of (sanitize tools1 h) l = heap_of (sanitize tools2 h) l.
Proof.
  intros Hsame. rewrite !sanitize_heap.
  by rewrite (bool_decide_ext _ _ (Hsame l)).
Qed.

(** The example registry taken backwards, with [lookup] listed twice. *)
Lemma sanitize_store_order_free_witness :
  heap_of (sanitize registry_tools registry_heap) 1
  = heap_of (sanitize (MkTool "lookup_again" 1 :: reverse registry_tools)
               registry_heap) 1.
Proof.
  refine (sanitize_store_order_free registry_tools
            (MkTool "lookup_again" 1 :: reverse registry_tools)
            registry_heap 1 _).
  intros f. split; intros Hin.
  - repeat (apply elem_of_cons in Hin as [->|Hin]);
      try (by apply elem_of_nil in Hin); decide_by_compute.
  - repeat (apply elem_of_cons in Hin as [->|Hin]);
      try (by apply elem_of_nil in Hin); decide_by_compute.
Defined.

Lemma tools_log_app tools1 tools2 h :
  tools_log (tools1 ++ tools2) h
  = tools_log tools1 h ++ tools_log tools2 (heap_of (sanitize tools1 h)).
Proof.
  revert h. induction tools1 as [|tool rest IH]; intros h; [done|].
  cbn [app tools_log]. rewrite IH, <- app_assoc. do 2 f_equal.
  apply tools_log_ext. intros l. rewrite !sanitize_heap. cbn [map].
  destruct (decide (l = tool_fn tool)) as [->|Hne].
  - rewrite fn_lookup_insert.
    rewrite (bool_decide_true (_ ∈ _ :: _)) by apply list_elem_of_here.
    case_bool_decide; [apply patch_obj_idem | done].
  - rewrite fn_lookup_insert_ne by done.
    assert (bool_decide (l ∈ tool_fn tool :: map tool_fn rest)
            = bool_decide (l ∈ map tool_fn rest)) as ->; [|done].
    apply bool_decide_ext. rewrite elem_of_cons.
    split; [by intros [?|?] | by right].
Qed.

(** X6.  Running the stage over a list of tools is running it over a first
    part and then, on the store that run left, over the rest: the
    callables returned and the log lines are those of the two runs one
    after the other, and the store is the one the second run leaves. *)
Theorem sanitize_in_batches tools1 tools2 h :
  value_of (sanitize (tools1 ++ tools2) h)
  = inr (map tool_fn tools1 ++ map tool_fn tools2)
  ∧ trace_of (sanitize (tools1 ++ tools2) h)
    = trace_of (sanitize tools1 h)
      ++ trace_of (sanitize tools2 (heap_of (sanitize tools1 h)))
  ∧ ∀ l, heap_of (sanitize (tools1 ++ tools2) h) l
         = heap_of (sanitize tools2 (heap_of (sanitize tools1 h))) l.
Proof.
  split; [by rewrite sanitize_value, map_app|]. split.
  - destruct (sanitize_run (tools1 ++ tools2) h) as (h' & -> & _).
    destruct (sanitize_run tools2 (heap_of (sanitize tools1 h)))
      as (h2 & -> & _).
    destruct (sanitize_run tools1 h) as (h1 & Hrun & _).
    rewrite tools_log_app, Hrun. done.
  - intros l. rewrite (sanitize_heap tools2), !sanitize_heap, map_app.
    destruct (bool_decide (l ∈ map tool_fn tools1)) eqn:H1;
      destruct (bool_decide (l ∈ map tool_fn tools2)) eqn:H2.
    + rewrite bool_decide_true.
      * by rewrite patch_obj_idem.
      * apply elem_of_app. left. by apply bool_decide_eq_true in H1.
    + rewrite bool_decide_true; [done|].
      apply elem_of_app. left. by apply bool_decide_eq_true in H1.
    + rewrite bool_decide_true; [done|].
      apply elem_of_app. right. by apply bool_decide_eq_true in H2.
    + rewrite bool_decide_false; [done|].
      apply bool_decide_eq_false in H1, H2.
      intros Hin. by apply elem_of_app in Hin as [?|?].
Qed.

(** ** The handlers of [main] with the classes of what is raised *)

(** Unfolding of the operations of the part on exception classes. *)
Ltac run_b :=
  unfold call_generate_b, call_post_b, outcome_b, py_str, lift;
  unfold mbind, MB_bind, mret, MB_ret, raise_b, emit, read_heap;
  cbn.

Lemma recover_exc_run w bot_token chat_id b text h :
  recover_exc w bot_token chat_id (Printable b text) h
  = (h, recovery_events bot_token chat_id (inl text), inr tt).
Proof.
  unfold recover_exc, except_all, notification_payload. run_b.
  by destruct (requests_post_b _ _ _).
Qed.

(** On collaborators that raise only exceptions of class [Exception] with
    a text, the two embeddings of lines 27-80 agree. *)
Lemma process_exc_embed w api_key bot_token chat_id message h :
  process_exc (embed_world w) api_key bot_token chat_id message h
  = lift (process w api_key bot_token chat_id message) h.
Proof.
  unfold process_exc, process, call_generate, call_post, embed_world.
  unfold as_exception, lift_outcome. run_b.
  unfold mbind, M_bind, mret, M_ret, raise. cbn.
  destruct (genai_Client w api_key) as [e|]; cbn; [done|].
  destruct (list_tools w) as [e|tools]; cbn; [done|].
  destruct (sanitize tools h) as [[h1 t1] [e|fns]]; cbn; [done|].
  destruct (generate_content w h1 model_id message fns) as [e|text]; cbn;
    [done|].
  destruct (requests_post w _ _) as [e|res]; cbn; [done|].
  by destruct (raise_for_status res) as [e|]; cbn.
Qed.

(** On such collaborators the two embeddings of [main] agree: the part
    above is this part without the objects outside [Exception]. *)
Lemma main_exc_embed environ w h :
  main_exc environ (embed_world w) h = lift (main environ w) h.
Proof.
  unfold main_exc, main.
  destruct (negb (forallb truthy _)); [done|].
  unfold except_Exception, try_except.
  unfold mbind, MB_bind, M_bind, emit, lift. cbv beta iota zeta.
  rewrite process_exc_embed. unfold lift.
  destruct (process w _ _ _ _ h) as [[h1 t1] [e|[]]];
    cbv beta iota zeta; cbn [is_Exception]; [|done].
  by rewrite recover_run, recover_exc_run.
Qed.

(** [process_exc] sends no notification. *)
Lemma process_exc_no_notification w api_key bot_token chat_id message h :
  List.filter is_notification_send
    (trace_b (process_exc w api_key bot_token chat_id message h)) = [].
Proof.
  unfold process_exc. run_b.
  destruct (genai_Client_b w api_key) as [e|]; cbn; [done|].
  destruct (list_tools_b w) as [e|tools]; cbn; [done|].
  destruct (sanitize_run tools h) as (h' & -> & _). cbn.
  assert (List.filter is_notification_send (tools_log tools h) = []) as Hlog.
  { apply filter_tools_log, notification_is_network. }
  destruct (generate_content_b w h' model_id message (map tool_fn tools))
    as [e|text]; cbn.
  { by rewrite List.filter_app, Hlog. }
  destruct (requests_post_b w _ _) as [e|res]; cbn.
  { by rewrite List.filter_app, Hlog. }
  destruct (raise_for_status_b res) as [e|]; cbn;
    by rewrite List.filter_app, Hlog.
Qed.

Lemma main_exc_run environ w h :
  main_exc environ w h
  = if forallb truthy (map (getenv environ) required_names) then
      let bot_token := getenv environ "TELEGRAM_BOT_TOKEN" in
      let chat_id := getenv environ "TELEGRAM_CHAT_ID" in
      let start := LogInfo ("Processing message for chat " +:+ fmt chat_id
                            +:+ ": "
                            +:+ fmt (getenv environ "TELEGRAM_MESSAGE")) in
      let r := process_exc w (getenv environ "GOOGLE_API_KEY") bot_token
                 chat_id (getenv environ "TELEGRAM_MESSAGE") h in
      match value_b r with
      | inr _ => (heap_b r, start :: trace_b r, inr tt)
      | inl e =>
          if is_Exception e then
            let r' := recover_exc w bot_token chat_id e (heap_b r) in
            (heap_b r', start :: trace_b r ++ trace_b r', value_b r')
          else (heap_b r, start :: trace_b r, inl e)
      end
    else (h, [LogError missing_env_msg], inr tt).
Proof.
  unfold main_exc. cbn [map required_names].
  destruct (forallb truthy _); cbn [negb]; [|done].
  unfold except_Exception, mbind, MB_bind, emit, lift. cbv beta iota zeta.
  destruct (process_exc _ _ _ _ _ h) as [[h1 t1] [e|[]]];
    cbv beta iota zeta; cbn [value_b heap_b trace_b fst snd]; [|done].
  destruct (is_Exception e); [|done].
  by destruct (recover_exc _ _ _ e h1) as [[h2 t2] r2].
Qed.

(** C9, as stated, fails.  The outer handler is [except Exception]: a
    [KeyboardInterrupt] raised by the completion call passes it and leaves
    [main], and no notification is sent.  An [Exception] whose [__str__]
    raises leaves [main] from line 83 of the handler, again before any
    notification. *)
Lemma interrupt_leaves_main :
  value_b (main_exc env_full world_interrupted registry_heap)
  = inl keyboard_interrupt
  ∧ count_events is_post
      (trace_b (main_exc env_full world_interrupted registry_heap)) = 0
  ∧ value_b (main_exc env_full world_unprintable registry_heap)
    = inl (Printable true "bad __str__")
  ∧ count_events is_post
      (trace_b (main_exc env_full world_unprintable registry_heap)) = 0.
Proof. repeat split; vm_compute; reflexivity. Qed.

(** C9, amended.  All failures of the notification send are swallowed,
    whatever the class of what is raised: the handler returns after that
    one attempt.  [main] returns to its caller when it stops at the
    validation, when the processing and the primary send complete, and
    when they raise an exception of class [Exception] whose text can be
    formatted.  What is raised there and is not of class [Exception] (a
    [KeyboardInterrupt], a [SystemExit]) is not caught by the outer handler:
    it leaves [main], and no notification is attempted. *)
Theorem notification_failures_swallowed environ w h :
  (∀ bot_token chat_id b text h',
     value_b (recover_exc w bot_token chat_id (Printable b text) h') = inr tt
     ∧ trace_b (recover_exc w bot_token chat_id (Printable b text) h')
       = [LogError ("Error in agent processing: " +:+ text);
          CallPost (telegram_url bot_token)
            [("chat_id", chat_id);
             ("text", Some (slice_to 4000 (error_prefix +:+ text)))]])
  ∧ (forallb truthy (map (getenv environ) required_names) = false →
     value_b (main_exc environ w h) = inr tt)
  ∧ (value_b (process_exc w (getenv environ "GOOGLE_API_KEY")
                 (getenv environ "TELEGRAM_BOT_TOKEN")
                 (getenv environ "TELEGRAM_CHAT_ID")
                 (getenv environ "TELEGRAM_MESSAGE") h) = inr tt →
     value_b (main_exc environ w h) = inr tt)
  ∧ (∀ text,
       value_b (process_exc w (getenv environ "GOOGLE_API_KEY")
                   (getenv environ "TELEGRAM_BOT_TOKEN")
                   (getenv environ "TELEGRAM_CHAT_ID")
                   (getenv environ "TELEGRAM_MESSAGE") h)
       = inl (Printable true text) →
       value_b (main_exc environ w h) = inr tt)
  ∧ (∀ e,
       forallb truthy (map (getenv environ) required_names) = true →
       value_b (process_exc w (getenv environ "GOOGLE_API_KEY")
                   (getenv environ "TELEGRAM_BOT_TOKEN")
                   (getenv environ "TELEGRAM_CHAT_ID")
                   (getenv environ "TELEGRAM_MESSAGE") h) = inl e →
       is_Exception e = false →
       value_b (main_exc environ w h) = inl e
       ∧ count_events is_notification_send (trace_b (main_exc environ w h))
         = 0).
Proof.
  split.
  { intros bot_token chat_id b text h'. by rewrite recover_exc_run. }
  split.
  { intros Henv. by rewrite main_exc_run, Henv. }
  split.
  { intros Hok. rewrite main_exc_run.
    destruct (forallb truthy _); [|done]. cbv zeta. by rewrite Hok. }
  split.
  { intros text Hraise. rewrite main_exc_run.
    destruct (forallb truthy _); [|done]. cbv zeta. rewrite Hraise.
    cbn [is_Exception]. by rewrite recover_exc_run. }
  intros e Henv Hraise Hclass.
  rewrite main_exc_run, Henv. cbv zeta. rewrite Hraise, Hclass.
  split; [done|]. cbn [trace_b fst snd]. unfold count_events. cbn.
  by rewrite process_exc_no_notification.
Qed.

(** The completion call fails with [connection reset] and the notification
    send is interrupted from the keyboard: [main] returns. *)
Lemma notification_failures_swallowed_witness :
  value_b (main_exc env_full world_failing_twice registry_heap) = inr tt.
Proof.
  refine (proj1 (proj2 (proj2 (proj2
            (notification_failures_swallowed env_full world_failing_twice
               registry_heap))))
            "connection reset" _).
  vm_compute. reflexivity.
Defined.
